(** * gowitness: the report generation pipeline of [cmd/generate.go]

    A shallow embedding of [generateCmd.Run]: the record loader with its
    placeholder substitution and response-code filter, the two calls of
    [sort.Slice], the page-index loop, the display projection and the
    render loop, followed by the properties of the pipeline.

    Go's [int] is a 64-bit two's complement integer: it is a [Z] here and
    every addition, subtraction and remainder of the source goes through
    [GoInt], which writes the wrap-around out.  Go strings are byte
    strings: they are [string], compared bytewise by [String.ltb]. *)

From Stdlib Require Import ZArith List String Ascii Bool Lia.
From Stdlib Require Import Permutation Sorted DecimalString.
From Stdlib Require DecimalZ DecimalPos.
Import ListNotations.
Local Open Scope string_scope.
Local Open Scope list_scope.
Local Open Scope Z_scope.

(** String concatenation, Go's [+] on strings. *)
Local Infix "+s" := String.append (right associativity, at level 60).

(* ================================================================= *)
(** ** Machine integers *)

Module GoInt.

Definition min_int : Z := - 2 ^ 63.
Definition max_int : Z := 2 ^ 63 - 1.

(** Reduction of a mathematical integer to the 64-bit signed range. *)
Definition wrap (z : Z) : Z := (z + 2 ^ 63) mod 2 ^ 64 - 2 ^ 63.

Definition add (a b : Z) : Z := wrap (a + b).
Definition sub (a b : Z) : Z := wrap (a - b).

(** [a % b]: truncated remainder; a zero divisor is a run-time panic. *)
Definition rem (a b : Z) : option Z :=
  if b =? 0 then None else Some (wrap (Z.rem a b)).

(** [len(s)] *)
Definition len {A : Type} (s : list A) : Z := Z.of_nat (List.length s).

(** [fmt.Sprintf("%v", n)] for an [int]. *)
Definition itoa (n : Z) : string := NilZero.string_of_int (Z.to_int n).

(** [s[lo:hi]]; out-of-range bounds are a run-time panic.  The upper
    bound is checked against the length: the pipeline never slices
    past it. *)
Definition slice {A : Type} (s : list A) (lo hi : Z) : option (list A) :=
  if (0 <=? lo) && (lo <=? hi) && (hi <=? len s)
  then Some (firstn (Z.to_nat (hi - lo)) (skipn (Z.to_nat lo) s))
  else None.

End GoInt.

(* ================================================================= *)
(** ** Data model *)

(** The double quote character, for the markup literals of the source. *)
Definition dq : string := String "034"%char EmptyString.

(** Modelled from the spec: [storage.HTTPHeader], whose declaration is in
    the storage package; a (key, value) pair of strings. *)
Record HTTPHeader : Type := mkHeader {
  Key : string;
  Value : string
}.

(** Modelled from the spec: [storage.HTTResponse], whose declaration is in
    the storage package; the fields are those the spec's data model lists
    and [generate.go] reads. *)
Record HTTResponse : Type := mkResponse {
  URL : string;
  FinalURL : string;
  ResponseCode : Z;
  PageTitle : string;
  ScreenshotFile : string;
  Headers : list HTTPHeader
}.

(** [type TemplateData struct] of the source. *)
Record TemplateData : Type := mkTemplateData {
  ScreenShots : list HTTResponse;
  PageIndex : string;
  PageCount : Z;
  PageNext : string;
  PagePrev : string;
  PageNumber : Z;
  ErrorsIgnored : Z
}.

(** What [os.Stat] followed by [os.IsNotExist] can tell apart. *)
Inductive StatResult : Type :=
| StatOk
| StatNotExist
| StatFailed (err : string).

(** Calls of the logrus logger, in program order. *)
Inductive Level : Type := DebugLevel | InfoLevel | ErrorLevel | FatalLevel.

Inductive FieldValue : Type :=
| FString (s : string)
| FInt (n : Z).

Record LogCall : Type := mkLog {
  log_level : Level;
  log_field : option (string * FieldValue);
  log_msg : string
}.

(** The record store as [db.Db.View] with [tx.Ascend] presents it: the
    (key, value) pairs in key order and the error [View] returns. *)
Record Db : Type := mkDb {
  db_pairs : list (string * string);
  db_err : option string
}.

(** One iteration of the render loop: the data handed to the template,
    the file written, and the two results the source discards. *)
Record PageRun : Type := mkPageRun {
  run_data : TemplateData;
  run_file : string;
  run_content : string;
  run_execute_err : option string;
  run_write_err : option string
}.

Inductive Exit : Type :=
| ExitReturn      (* [Run] returns *)
| ExitFatal       (* [log.Fatal]: the process exits *)
| ExitPanic.      (* run-time panic *)

Record Outcome : Type := mkOutcome {
  out_log : list LogCall;
  out_pages : list PageRun;
  out_exit : Exit
}.

(** Files that exist after the run because a write succeeded. *)
Definition files_written (o : Outcome) : list (string * string) :=
  map (fun r => (run_file r, run_content r))
      (filter (fun r => match run_write_err r with None => true | Some _ => false end)
              (out_pages o)).

Definition has_level (lv : Level) (c : LogCall) : bool :=
  match lv, log_level c with
  | DebugLevel, DebugLevel | InfoLevel, InfoLevel
  | ErrorLevel, ErrorLevel | FatalLevel, FatalLevel => true
  | _, _ => false
  end.

(* ================================================================= *)
(** ** The environment of the command

    Everything [generate.go] imports: library functions, the file system,
    and the two constants of the template package. *)

Class Env : Type := mkEnv {
  (** [gwtmpl.PlaceHolderImage] *)
  PlaceHolderImage : string;
  (** [strings.ToLower] *)
  ToLower : string -> string;
  (** [filepath.Base] *)
  Base : string -> string;
  (** [sort.Slice], on the values the index closure compares *)
  sort_Slice : (HTTResponse -> HTTResponse -> bool) ->
               list HTTResponse -> list HTTResponse;
  (** [json.Unmarshal] into a zero [HTTResponse]: an error or the record *)
  json_Unmarshal : string -> string + HTTResponse;
  (** [os.Stat] on the file system of the run *)
  os_Stat : string -> StatResult;
  (** the error of [template.New(...).Parse(gwtmpl.HTMLContent)], if any *)
  template_Parse : option string;
  (** [tmplPage.Execute]: the bytes put in the buffer and the error *)
  template_Execute : TemplateData -> string * option string;
  (** [ioutil.WriteFile]: the error, if any *)
  ioutil_WriteFile : string -> string -> option string
}.

(** A comparison that [sort.Slice] accepts: a strict weak order. *)
Record StrictWeak {A : Type} (less : A -> A -> bool) : Prop := {
  sw_asym : forall a b, less a b = true -> less b a = false;
  sw_negtrans : forall a b c,
      less b a = false -> less c b = false -> less c a = false
}.

(** The documented contract of [sort.Slice]: the slice is permuted into
    ascending order of [less].  Nothing is said of equal elements. *)
Definition SortSliceContract
    (srt : (HTTResponse -> HTTResponse -> bool) ->
           list HTTResponse -> list HTTResponse) : Prop :=
  forall less l, StrictWeak less ->
    Permutation l (srt less l) /\
    StronglySorted (fun a b => less b a = false) (srt less l).

(** A sort that keeps equal elements in their order ([sort.SliceStable]
    promises it, [sort.Slice] does not): the elements equivalent to any
    [x] come out as they went in. *)
Definition equiv_under {A : Type} (less : A -> A -> bool) (x y : A) : bool :=
  negb (less x y) && negb (less y x).

Definition StableSort
    (srt : (HTTResponse -> HTTResponse -> bool) ->
           list HTTResponse -> list HTTResponse) : Prop :=
  forall less l x, StrictWeak less ->
    filter (equiv_under less x) (srt less l) = filter (equiv_under less x) l.

(** One call of a sort keeps equal elements in their order: the elements
    of the slice [l] equivalent to any [x] come out as they went in. *)
Definition StableCall
    (srt : (HTTResponse -> HTTResponse -> bool) ->
           list HTTResponse -> list HTTResponse)
    (less : HTTResponse -> HTTResponse -> bool) (l : list HTTResponse) : Prop :=
  forall x,
    filter (equiv_under less x) (srt less l) = filter (equiv_under less x) l.

(** What the pipeline relies on from [strings.ToLower]: it maps rune by
    rune, so exactly the empty string has an empty image. *)
Definition ToLowerLaws (lower : string -> string) : Prop :=
  lower EmptyString = EmptyString /\
  (forall s, lower s = EmptyString -> s = EmptyString).

(* ================================================================= *)
(** ** The pipeline *)

Section Pipeline.

Context {E : Env}.

(** *** Loader and filter: the callback of [tx.Ascend] *)

Record LoadState : Type := mkLoadState {
  screenshotEntries : list HTTResponse;
  errorsIgnored : Z;
  load_log : list LogCall
}.

Definition set_ScreenshotFile (data : HTTResponse) (f : string) : HTTResponse :=
  mkResponse (URL data) (FinalURL data) (ResponseCode data)
             (PageTitle data) f (Headers data).

Definition set_Headers (data : HTTResponse) (hs : list HTTPHeader) : HTTResponse :=
  mkResponse (URL data) (FinalURL data) (ResponseCode data)
             (PageTitle data) (ScreenshotFile data) hs.

(** [if _, err := os.Stat(data.ScreenshotFile); os.IsNotExist(err)] *)
Definition check_screenshot (data : HTTResponse) : HTTResponse * list LogCall :=
  match os_Stat (ScreenshotFile data) with
  | StatNotExist =>
      (set_ScreenshotFile data PlaceHolderImage,
       [mkLog DebugLevel
              (Some ("screenshot-file", FString (ScreenshotFile data)))
              "Adding placeholder for missing screenshot"])
  | StatOk | StatFailed _ => (data, [])
  end.

Definition placeholder_or_keep (data : HTTResponse) : HTTResponse :=
  fst (check_screenshot data).

(** [data.ResponseCode >= 200 && data.ResponseCode < 300] *)
Definition is_success (data : HTTResponse) : bool :=
  (200 <=? ResponseCode data) && (ResponseCode data <? 300).

(** One call of the callback: the new state, or the log at the point
    where [log.Fatal] ends the process. *)
Definition ascend_fn (includeErrors : bool) (st : LoadState)
    (kv : string * string) : list LogCall + LoadState :=
  let value := snd kv in
  let log1 := load_log st ++
    [mkLog DebugLevel (Some ("url", FString value))
           ("Generating screenshot entry for" +s value)] in
  match json_Unmarshal value with
  | inl err => inl (log1 ++ [mkLog FatalLevel None err])
  | inr decoded =>
      let (data, plog) := check_screenshot decoded in
      let log2 := log1 ++ plog ++
        [mkLog DebugLevel (Some ("url", FString (FinalURL data)))
               "Generating screenshot entry"] in
      if includeErrors then
        inr (mkLoadState (screenshotEntries st ++ [data]) (errorsIgnored st) log2)
      else if is_success data then
        inr (mkLoadState (screenshotEntries st ++ [data]) (errorsIgnored st) log2)
      else
        inr (mkLoadState (screenshotEntries st)
                         (GoInt.add (errorsIgnored st) 1) log2)
  end.

(** [tx.Ascend("", fn)]: the callback always returns [true], so every
    pair is visited unless the process has exited. *)
Fixpoint Ascend (includeErrors : bool) (pairs : list (string * string))
    (st : LoadState) : list LogCall + LoadState :=
  match pairs with
  | [] => inr st
  | kv :: rest =>
      match ascend_fn includeErrors st kv with
      | inl fatal => inl fatal
      | inr st' => Ascend includeErrors rest st'
      end
  end.

Definition load (includeErrors : bool) (pairs : list (string * string)) :
    list LogCall + LoadState :=
  Ascend includeErrors pairs (mkLoadState [] 0 []).

(** *** Sorter *)

(** First [sort.Slice]: lower-cased page titles, bytewise [<]. *)
Definition title_less (a b : HTTResponse) : bool :=
  String.ltb (ToLower (PageTitle a)) (ToLower (PageTitle b)).

(** The inner loops of the second comparison: no [break], so the value
    of every matching header overwrites the previous one. *)
Definition server_of (hs : list HTTPHeader) : string :=
  fold_left
    (fun server h =>
       if String.eqb (ToLower (Key h)) "server" then ToLower (Value h) else server)
    hs "".

Definition server_less (a b : HTTResponse) : bool :=
  String.ltb (server_of (Headers a)) (server_of (Headers b)).

(** The scan for [lastSortIndex]: the index of the first record with a
    title, and the initial [0] when the loop never breaks. *)
Fixpoint scan_titled (i : Z) (l : list HTTResponse) : option Z :=
  match l with
  | [] => None
  | screen :: rest =>
      if negb (String.eqb (PageTitle screen) "") then Some i
      else scan_titled (GoInt.add i 1) rest
  end.

Definition lastSortIndex (l : list HTTResponse) : Z :=
  match scan_titled 0 l with
  | Some i => i
  | None => 0
  end.

(** Both sorts.  The second one sorts [screenshotEntries[:lastSortIndex]]
    in place; its closure indexes [screenshotEntries], which shares its
    first element with the sub-slice, so it compares the elements being
    sorted. *)
Definition sorter (l : list HTTResponse) : list HTTResponse :=
  let l1 := sort_Slice title_less l in
  let n := Z.to_nat (lastSortIndex l1) in
  sort_Slice server_less (firstn n l1) ++ skipn n l1.

(** *** Paginator: the page-index loop *)

Definition page_file (pageno : Z) : string :=
  "page-" +s GoInt.itoa pageno +s ".html".

Definition index_anchor (pageno : Z) : string :=
  "&#8226;<a class=" +s dq +s "page-number" +s dq +s " href=" +s dq +s
  page_file pageno +s dq +s ">" +s GoInt.itoa pageno +s "</a>".

(** [for i := 0; i < len(screenshotEntries); i += pageSize]; [None]
    when the fuel does not suffice. *)
Fixpoint index_loop (fuel : nat) (n pageSize i pageno : Z)
    (pageIndex : string) : option (Z * string) :=
  match fuel with
  | O => None
  | S fuel' =>
      if i <? n then
        index_loop fuel' n pageSize (GoInt.add i pageSize)
                   (GoInt.add pageno 1) (pageIndex +s index_anchor pageno)
      else Some (pageno, pageIndex)
  end.

(** *** Renderer: display projection and render loop *)

Definition is_server (header : HTTPHeader) : bool :=
  String.eqb (ToLower (Key header)) "server".

(** The body of the projection loop, on one element. *)
Definition project (screen : HTTResponse) : HTTResponse :=
  let screen1 :=
    if negb (String.eqb (ScreenshotFile screen) PlaceHolderImage)
    then set_ScreenshotFile screen (Base (ScreenshotFile screen))
    else screen in
  set_Headers screen1 (filter is_server (Headers screen1)).

Definition prev_link (target : Z) : string :=
  "<a id=" +s dq +s "prev-page" +s dq +s " href=" +s dq +s "page-" +s
  GoInt.itoa target +s ".html" +s dq +s ">Prev</a>".

Definition next_link (target : Z) : string :=
  "&#8226;<a id=" +s dq +s "next-page" +s dq +s " href=" +s dq +s "page-" +s
  GoInt.itoa target +s ".html" +s dq +s ">Next</a>".

(** [(pageno + pageCount - 1) % pageCount] and [(pageno + 1) % pageCount] *)
Definition prev_target (pageno pageCount : Z) : option Z :=
  GoInt.rem (GoInt.sub (GoInt.add pageno pageCount) 1) pageCount.

Definition next_target (pageno pageCount : Z) : option Z :=
  GoInt.rem (GoInt.add pageno 1) pageCount.

Definition reportDir : string := ".".

(** The data of one page, or [None] where the body panics. *)
Definition page_data (entries : list HTTResponse) (pageSize pageCount : Z)
    (pageIndex : string) (ignored i pageno : Z) : option TemplateData :=
  let end0 := GoInt.sub (GoInt.len entries) i in
  let end1 := if pageSize <? end0 then pageSize else end0 in
  match prev_target pageno pageCount, next_target pageno pageCount with
  | Some p, Some n =>
      match GoInt.slice entries i (GoInt.add i end1) with
      | Some shots =>
          Some (mkTemplateData shots pageIndex (GoInt.len entries)
                               (next_link n) (prev_link p) pageno ignored)
      | None => None
      end
  | _, _ => None
  end.

(** [Execute] and [WriteFile] for one page; both errors are dropped. *)
Definition render_page (td : TemplateData) : PageRun :=
  let (page, xerr) := template_Execute td in
  let pageFile := reportDir +s "/page-" +s GoInt.itoa (PageNumber td) +s ".html" in
  mkPageRun td pageFile page xerr (ioutil_WriteFile pageFile page).

(** The render loop: the pages rendered and whether the loop ended in a
    panic; [None] when the fuel does not suffice. *)
Fixpoint render_loop (fuel : nat) (entries : list HTTResponse)
    (pageSize pageCount : Z) (pageIndex : string) (ignored i pageno : Z) :
    option (list PageRun * bool) :=
  match fuel with
  | O => None
  | S fuel' =>
      if i <? GoInt.len entries then
        match page_data entries pageSize pageCount pageIndex ignored i pageno with
        | None => Some ([], true)
        | Some td =>
            match render_loop fuel' entries pageSize pageCount pageIndex ignored
                              (GoInt.add i pageSize) (GoInt.add pageno 1) with
            | None => None
            | Some (runs, panicked) => Some (render_page td :: runs, panicked)
            end
        end
      else Some ([], false)
  end.

(** *** [generateCmd.Run] *)

Definition Run (fuel : nat) (db : Db) (pageSize : Z) (includeErrors : bool) :
    option Outcome :=
  match load includeErrors (db_pairs db) with
  | inl fatal => Some (mkOutcome fatal [] ExitFatal)
  | inr st =>
      let entries := sorter (screenshotEntries st) in
      match db_err db with
      | Some err =>
          Some (mkOutcome (load_log st ++ [mkLog FatalLevel None err]) [] ExitFatal)
      | None =>
          if GoInt.len entries <=? 0 then
            Some (mkOutcome
                    (load_log st ++
                     [mkLog ErrorLevel (Some ("count", FInt (GoInt.len entries)))
                            "No screenshot entries exist to create a report"])
                    [] ExitReturn)
          else
            match template_Parse with
            | Some err =>
                Some (mkOutcome
                        (load_log st ++
                         [mkLog FatalLevel (Some ("err", FString err))
                                "Failed to parse template"])
                        [] ExitFatal)
            | None =>
                match index_loop fuel (GoInt.len entries) pageSize 0 0 "" with
                | None => None
                | Some (pageCount, pageIndex) =>
                    let shown := map project entries in
                    match render_loop fuel shown pageSize pageCount pageIndex
                                      (errorsIgnored st) 0 0 with
                    | None => None
                    | Some (runs, true) =>
                        Some (mkOutcome (load_log st) runs ExitPanic)
                    | Some (runs, false) =>
                        Some (mkOutcome
                                (load_log st ++
                                 [mkLog InfoLevel
                                        (Some ("report-file", FString "page-0.html"))
                                        "Report generated"])
                                runs ExitReturn)
                    end
                end
            end
      end
  end.

(** *** Vocabulary of the statements *)

(** Every stored value decodes, to the records [ds] in store order. *)
Definition decodes (pairs : list (string * string))
    (ds : list HTTResponse) : Prop :=
  Forall2 (fun kv d => json_Unmarshal (snd kv) = inr d) pairs ds.

(** A log call that reports a failure. *)
Definition is_failure_call (c : LogCall) : bool :=
  has_level ErrorLevel c || has_level FatalLevel c.

(** [ceil(n / p)] for a positive [p]. *)
Definition ceil_div (n p : Z) : Z := (n + p - 1) / p.

(** The slice of page [p] in the spec's words:
    [kept[p*pageSize : min(len(kept), (p+1)*pageSize)]]. *)
Definition spec_slice (kept : list HTTResponse) (pageSize p : Z) :
    list HTTResponse :=
  firstn (Z.to_nat (Z.min (GoInt.len kept) ((p + 1) * pageSize) - p * pageSize))
         (skipn (Z.to_nat (p * pageSize)) kept).

(** The page numbers [from], [from + 1], ... ([count] of them). *)
Fixpoint page_numbers (from : Z) (count : nat) : list Z :=
  match count with
  | O => []
  | S count' => from :: page_numbers (from + 1) count'
  end.

(** The data of page [p] in the spec's words. *)
Definition spec_page (kept : list HTTResponse) (pageSize pageCount : Z)
    (pageIndex : string) (ignored p : Z) : TemplateData :=
  mkTemplateData (spec_slice kept pageSize p) pageIndex (GoInt.len kept)
                 (next_link ((p + 1) mod pageCount))
                 (prev_link ((p + pageCount - 1) mod pageCount))
                 p ignored.

(** The navigation index: one anchor per page, in ascending order. *)
Definition index_string (start : string) (pages : list Z) : string :=
  fold_left (fun s p => s +s index_anchor p) pages start.

Definition shots_of (runs : list PageRun) : list (list HTTResponse) :=
  map (fun r => ScreenShots (run_data r)) runs.

(** A record without a page title. *)
Definition untitled (r : HTTResponse) : bool := String.eqb (PageTitle r) "".

(** The secondary key in the spec's words: the value of the first
    header whose key is "server" up to case, the empty string if there
    is none, compared up to case. *)
Definition spec_server_key (r : HTTResponse) : string :=
  match filter is_server (Headers r) with
  | [] => ""
  | h :: _ => ToLower (Value h)
  end.

(** The key the second comparison computes. *)
Definition server_key (r : HTTResponse) : string := server_of (Headers r).

(** Equal comparison keys at both levels: the lower-cased titles agree
    and, for records without a title, so do the server keys. *)
Definition same_keys (x y : HTTResponse) : bool :=
  String.eqb (ToLower (PageTitle x)) (ToLower (PageTitle y)) &&
  (negb (untitled x) || String.eqb (server_key x) (server_key y)).

(** [a] comes before [b] in [l]. *)
Definition precedes (l : list HTTResponse) (a b : HTTResponse) : Prop :=
  exists i j, (i < j)%nat /\ nth_error l i = Some a /\ nth_error l j = Some b.

(** The records the filter keeps, from the decoded ones. *)
Definition kept_of (includeErrors : bool) (ds : list HTTResponse) :
    list HTTResponse :=
  filter (fun d => includeErrors || is_success d) (map placeholder_or_keep ds).

Definition ignored_of (includeErrors : bool) (ds : list HTTResponse) : Z :=
  GoInt.len (filter (fun d => negb (includeErrors || is_success d))
                    (map placeholder_or_keep ds)).

(** The two log calls that end a run without a fatal error. *)
Definition no_entries_call : LogCall :=
  mkLog ErrorLevel (Some ("count", FInt 0))
        "No screenshot entries exist to create a report".

Definition report_generated_call : LogCall :=
  mkLog InfoLevel (Some ("report-file", FString "page-0.html"))
        "Report generated".

(** A log call that carries the integer [n] in its field. *)
Definition carries_int (n : Z) (c : LogCall) : bool :=
  match log_field c with
  | Some (_, FInt m) => m =? n
  | _ => false
  end.

(** The conditions under which a run gets to render pages: the sort
    meets its contract, every stored value decodes, the store has a
    size the machine can hold, [View] reports no error, the template
    parses, the page size is a positive [int], some record is kept, and
    the fuel covers one iteration per record. *)
Definition renders (fuel : nat) (db : Db) (ds : list HTTResponse)
    (pageSize : Z) (includeErrors : bool) : Prop :=
  SortSliceContract sort_Slice /\
  decodes (db_pairs db) ds /\
  GoInt.len (db_pairs db) <= 2 ^ 62 /\
  db_err db = None /\
  template_Parse = None /\
  0 < pageSize <= GoInt.max_int /\
  kept_of includeErrors ds <> [] /\
  (List.length (db_pairs db) < fuel)%nat.

(** The records of all pages of a run, in page order. *)
Definition shown (o : Outcome) : list HTTResponse :=
  List.concat (shots_of (out_pages o)).

End Pipeline.

(* ================================================================= *)
(** ** Concrete library functions and example runs

    Instances of the environment on which the pipeline can be evaluated. *)

Module Concrete.

(** [strings.ToLower] on its ASCII path: ['A'..'Z'] move up by
    ['a' - 'A'], every other byte is kept. *)
Definition lower_byte (c : ascii) : ascii :=
  let n := N_of_ascii c in
  if ((65 <=? n) && (n <=? 90))%N then ascii_of_N (n + 32) else c.

Fixpoint ascii_ToLower (s : string) : string :=
  match s with
  | EmptyString => EmptyString
  | String c rest => String (lower_byte c) (ascii_ToLower rest)
  end.

(** [filepath.Base] with ['/'] as the separator. *)
Definition is_sep (c : ascii) : bool := Ascii.eqb c "/"%char.

Fixpoint drop_seps (l : list ascii) : list ascii :=
  match l with
  | c :: rest => if is_sep c then drop_seps rest else l
  | [] => []
  end.

Fixpoint take_element (l : list ascii) : list ascii :=
  match l with
  | c :: rest => if is_sep c then [] else c :: take_element rest
  | [] => []
  end.

Definition unix_Base (path : string) : string :=
  if String.eqb path "" then "."
  else
    match rev (take_element (drop_seps (rev (list_ascii_of_string path)))) with
    | [] => "/"
    | element => string_of_list_ascii element
    end.

Section Sorts.

Context {A : Type} (less : A -> A -> bool).

(** [insertionSort_func]: each element moves left while it is less
    than its left neighbour.  The sorted prefix is kept reversed. *)
Fixpoint insert_back (x : A) (rprefix : list A) : list A :=
  match rprefix with
  | [] => [x]
  | y :: rest => if less x y then y :: insert_back x rest else x :: rprefix
  end.

Definition insertionSort (l : list A) : list A :=
  rev (fold_left (fun rprefix x => insert_back x rprefix) l []).

(** The Shell pass with gap 6 that [quickSort_func] runs before the
    insertion sort: [if less(i, i-6) { swap(i, i-6) }] for [i] from 6.
    On at most 12 elements the pairs are disjoint. *)
Fixpoint gap_swap (front back : list A) : list A * list A :=
  match front, back with
  | a :: front', b :: back' =>
      let (f, k) := gap_swap front' back' in
      if less b a then (b :: f, a :: k) else (a :: f, b :: k)
  | _, _ => (front, back)
  end.

Definition shell_pass (l : list A) : list A :=
  let (f, k) := gap_swap (firstn 6 l) (firstn 6 (skipn 6 l)) in
  f ++ k ++ skipn 12 l.

(** [sort.Slice] of the Go releases with [quickSort_func] (1.8 to
    1.18) on a slice of at most 12 elements, where the partitioning
    loop is not entered.  Longer slices are sorted the same way
    here, which still meets the contract. *)
Definition shell_insertion_sort (l : list A) : list A :=
  insertionSort (shell_pass l).

End Sorts.

(** A store whose values decode as a table says. *)
Definition table_Unmarshal (tbl : list (string * HTTResponse))
    (value : string) : string + HTTResponse :=
  match find (fun p => String.eqb (fst p) value) tbl with
  | Some p => inr (snd p)
  | None => inl "unexpected end of JSON input"
  end.

Definition placeholder : string := "data:image/png;base64,placeholder".

(** A template that prints the page number and both links. *)
Definition plain_Execute (td : TemplateData) : string * option string :=
  (GoInt.itoa (PageNumber td) +s PagePrev td +s PageNext td, None).

Definition example_env
    (srt : (HTTResponse -> HTTResponse -> bool) ->
           list HTTResponse -> list HTTResponse)
    (tbl : list (string * HTTResponse))
    (stat : string -> StatResult)
    (write : string -> string -> option string) : Env :=
  mkEnv placeholder ascii_ToLower unix_Base srt (table_Unmarshal tbl)
        stat None plain_Execute write.

Definition all_present (path : string) : StatResult := StatOk.
Definition write_ok (name data : string) : option string := None.

Definition response (code : Z) (title file : string)
    (hs : list HTTPHeader) : HTTResponse :=
  mkResponse ("http://" +s file) ("http://" +s file +s "/") code title file hs.

(** Three records that all answered 404. *)
Definition table_404 : list (string * HTTResponse) :=
  [("v1", response 404 "Not Found" "shots/a.png" []);
   ("v2", response 404 "Not Found" "shots/b.png" []);
   ("v3", response 404 "" "shots/c.png" [])].

Definition db_404 : Db := mkDb [("k1", "v1"); ("k2", "v2"); ("k3", "v3")] None.

(** A mixed store: two successes, a redirect and a server error. *)
Definition table_mixed : list (string * HTTResponse) :=
  [("v1", response 200 "Welcome" "shots/a.png" [mkHeader "Server" "nginx"]);
   ("v2", response 301 "Moved" "shots/b.png" []);
   ("v3", response 299 "" "shots/c.png" [mkHeader "X-Id" "7"; mkHeader "SERVER" "Apache"]);
   ("v4", response 500 "" "shots/d.png" [])].

Definition db_mixed : Db :=
  mkDb [("k1", "v1"); ("k2", "v2"); ("k3", "v3"); ("k4", "v4")] None.

(** A file system where one probe fails with something other than
    "does not exist", and one file is missing. *)
Definition stat_denied (path : string) : StatResult :=
  if String.eqb path "shots/a.png" then StatFailed "permission denied"
  else if String.eqb path "shots/c.png" then StatNotExist
  else StatOk.

Definition env_mixed : Env :=
  example_env insertionSort table_mixed all_present write_ok.

Definition env_denied : Env :=
  example_env insertionSort table_mixed stat_denied write_ok.

(** Eighty-five records that all answered 200, stored under the keys
    and values ["1"] ... ["85"]. *)
Definition numbered (k : nat) : HTTResponse :=
  response 200 ("site " +s GoInt.itoa (Z.of_nat k))
           ("shots/" +s GoInt.itoa (Z.of_nat k) +s ".png") [].

Definition table_85 : list (string * HTTResponse) :=
  map (fun k => (GoInt.itoa (Z.of_nat k), numbered k)) (seq 1 85).

Definition db_85 : Db :=
  mkDb (map (fun k => (GoInt.itoa (Z.of_nat k), GoInt.itoa (Z.of_nat k))) (seq 1 85))
       None.

Definition env_85 : Env :=
  example_env insertionSort table_85 all_present write_ok.

Definition kept_85 : list HTTResponse := map numbered (seq 1 85).

(** Records for the sorter. *)
Definition rec_nginx : HTTResponse :=
  response 200 "" "shots/n.png" [mkHeader "Server" "nginx"].
Definition rec_apache : HTTResponse :=
  response 200 "" "shots/a.png" [mkHeader "Server" "apache"].
Definition rec_titled : HTTResponse :=
  response 200 "Home" "shots/h.png" [mkHeader "Server" "caddy"].
Definition rec_two_servers : HTTResponse :=
  response 200 "" "shots/z.png"
           [mkHeader "Server" "zeta"; mkHeader "server" "alpha"].
Definition rec_mid : HTTResponse :=
  response 200 "" "shots/m.png" [mkHeader "Server" "mid"].

Definition rec_b1 : HTTResponse := response 200 "b" "shots/1.png" [].
Definition rec_b2 : HTTResponse := response 200 "b" "shots/2.png" [].
Definition rec_c (file : string) : HTTResponse := response 200 "c" file [].
Definition rec_a : HTTResponse := response 200 "a" "shots/7.png" [].

(** Seven titled records; the first two share the title ["b"]. *)
Definition kept_7 : list HTTResponse :=
  [rec_b1; rec_b2; rec_c "shots/3.png"; rec_c "shots/4.png";
   rec_c "shots/5.png"; rec_c "shots/6.png"; rec_a].

(** Six records: three without a title, two that share the title ["b"]. *)
Definition kept_6 : list HTTResponse :=
  [rec_nginx; rec_b1; rec_apache; rec_b2; rec_titled; rec_mid].

(** [sort.Slice] as plain insertion sort, and as the Shell pass
    followed by insertion sort (they agree up to 6 elements). *)
Definition env_insertion : Env :=
  example_env insertionSort [] all_present write_ok.

Definition env_shell : Env :=
  example_env shell_insertion_sort [] all_present write_ok.

Definition env_404 : Env :=
  example_env insertionSort table_404 all_present write_ok.

(** A run where the template fails on page 2 and the write of page 1
    is refused. *)
Definition failing_Execute (td : TemplateData) : string * option string :=
  if PageNumber td =? 2 then ("", Some "template: report-page: executing")
  else plain_Execute td.

Definition failing_write (name data : string) : option string :=
  if String.eqb name "./page-1.html" then Some "permission denied" else None.

Definition env_failing : Env :=
  mkEnv placeholder ascii_ToLower unix_Base (fun less => insertionSort less)
        (table_Unmarshal table_85) all_present None failing_Execute failing_write.

(** A store whose second value is not a JSON record. *)
Definition db_broken : Db :=
  mkDb [("k1", "v1"); ("k2", "{oops"); ("k3", "v3"); ("k4", "v4")] None.

(** The mixed store, with [View] ending in an error. *)
Definition db_view_failed : Db :=
  mkDb (db_pairs db_mixed) (Some "database closed").

(** An environment whose report template does not parse. *)
Definition env_bad_template : Env :=
  mkEnv placeholder ascii_ToLower unix_Base (fun less => insertionSort less)
        (table_Unmarshal table_mixed) all_present
        (Some "template: report-page:1: unexpected EOF") plain_Execute write_ok.

End Concrete.

(* ================================================================= *)
(** * Properties *)

(** ** Machine integers in range *)

Lemma wrap_in_range (z : Z) :
  GoInt.min_int <= z <= GoInt.max_int -> GoInt.wrap z = z.
Proof.
  unfold GoInt.min_int, GoInt.max_int, GoInt.wrap. intros H.
  rewrite Z.mod_small; lia.
Qed.

Lemma add_in_range (a b : Z) :
  GoInt.min_int <= a + b <= GoInt.max_int -> GoInt.add a b = a + b.
Proof. apply wrap_in_range. Qed.

Lemma sub_in_range (a b : Z) :
  GoInt.min_int <= a - b <= GoInt.max_int -> GoInt.sub a b = a - b.
Proof. apply wrap_in_range. Qed.

Lemma max_int_value : GoInt.max_int = 9223372036854775807.
Proof. reflexivity. Qed.

Lemma min_int_value : GoInt.min_int = -9223372036854775808.
Proof. reflexivity. Qed.

Lemma len_nonneg {A : Type} (l : list A) : 0 <= GoInt.len l.
Proof. unfold GoInt.len. lia. Qed.

Lemma len_cons {A : Type} (x : A) (l : list A) :
  GoInt.len (x :: l) = GoInt.len l + 1.
Proof. unfold GoInt.len. simpl List.length. lia. Qed.

Ltac int_range :=
  rewrite ?max_int_value, ?min_int_value in *; lia.

(* ================================================================= *)
(** ** Loader and filter *)

Section LoaderFacts.

Context {E : Env}.

Lemma check_screenshot_log_quiet (d : HTTResponse) :
  filter is_failure_call (snd (check_screenshot d)) = [].
Proof.
  unfold check_screenshot. destruct (os_Stat (ScreenshotFile d)); reflexivity.
Qed.

(** One callback on a value that decodes: never fatal, and the record
    goes to the entries or to the ignored counter. *)
Lemma ascend_fn_decoded (inc : bool) (st : LoadState) (kv : string * string)
    (d : HTTResponse) :
  json_Unmarshal (snd kv) = inr d ->
  exists lg,
    ascend_fn inc st kv =
      inr (if inc || is_success (placeholder_or_keep d)
           then mkLoadState (screenshotEntries st ++ [placeholder_or_keep d])
                            (errorsIgnored st) lg
           else mkLoadState (screenshotEntries st)
                            (GoInt.add (errorsIgnored st) 1) lg) /\
    filter is_failure_call lg = filter is_failure_call (load_log st).
Proof.
  intros Hd. unfold ascend_fn, placeholder_or_keep. rewrite Hd.
  pose proof (check_screenshot_log_quiet d) as Hq.
  destruct (check_screenshot d) as [data plog]. simpl in *.
  assert (Hlog : forall lg1 lg3 : list LogCall,
             filter is_failure_call lg1 = [] ->
             filter is_failure_call lg3 = [] ->
             filter is_failure_call ((load_log st ++ lg1) ++ plog ++ lg3) =
             filter is_failure_call (load_log st)).
  { intros lg1 lg3 H1 H3. rewrite !filter_app, H1, Hq, H3, !app_nil_r.
    reflexivity. }
  destruct inc; simpl; [|destruct (is_success data)];
    (eexists; split; [reflexivity | apply Hlog; reflexivity]).
Qed.

Lemma Ascend_decoded (inc : bool) (pairs : list (string * string))
    (ds : list HTTResponse) :
  decodes pairs ds ->
  forall st,
    0 <= errorsIgnored st ->
    errorsIgnored st + GoInt.len pairs <= GoInt.max_int ->
    let loaded := map placeholder_or_keep ds in
    exists lg,
      Ascend inc pairs st =
        inr (mkLoadState
               (screenshotEntries st ++
                filter (fun d => inc || is_success d) loaded)
               (errorsIgnored st +
                GoInt.len (filter (fun d => negb (inc || is_success d)) loaded))
               lg) /\
      filter is_failure_call lg = filter is_failure_call (load_log st).
Proof.
  induction 1 as [|kv d pairs ds Hd _ IH]; intros st H0 Hmax; simpl.
  - exists (load_log st). rewrite app_nil_r, Z.add_0_r.
    destruct st; auto.
  - destruct (ascend_fn_decoded inc st kv d Hd) as (lg1 & Hstep & Hq1).
    rewrite Hstep. rewrite len_cons in Hmax.
    pose proof (len_nonneg pairs) as Hp.
    destruct (inc || is_success (placeholder_or_keep d)) eqn:Hk; simpl.
    + destruct (IH (mkLoadState (screenshotEntries st ++ [placeholder_or_keep d])
                                (errorsIgnored st) lg1))
        as (lg & Hrun & Hq); simpl; try lia.
      exists lg. rewrite Hrun. simpl. rewrite <- app_assoc. simpl.
      split; [reflexivity | simpl in Hq; congruence].
    + rewrite add_in_range by int_range.
      destruct (IH (mkLoadState (screenshotEntries st)
                                (errorsIgnored st + 1) lg1))
        as (lg & Hrun & Hq); simpl; try lia.
      exists lg. rewrite Hrun. simpl. rewrite len_cons.
      split; [f_equal; f_equal; lia | simpl in Hq; congruence].
Qed.

Lemma load_decoded (inc : bool) (pairs : list (string * string))
    (ds : list HTTResponse) :
  decodes pairs ds ->
  GoInt.len pairs <= GoInt.max_int ->
  let loaded := map placeholder_or_keep ds in
  exists lg,
    load inc pairs =
      inr (mkLoadState
             (filter (fun d => inc || is_success d) loaded)
             (GoInt.len (filter (fun d => negb (inc || is_success d)) loaded))
             lg) /\
    filter is_failure_call lg = [].
Proof.
  intros Hd Hmax. unfold load.
  destruct (Ascend_decoded inc pairs ds Hd (mkLoadState [] 0 []))
    as (lg & Hrun & Hq); simpl; try lia.
  exists lg. split; assumption.
Qed.

Lemma filter_all_true {A : Type} (l : list A) : filter (fun _ => true) l = l.
Proof. induction l; simpl; congruence. Qed.

Lemma filter_all_false {A : Type} (l : list A) : filter (fun _ => false) l = [].
Proof. induction l; simpl; congruence. Qed.

End LoaderFacts.

(** C2 (filter).  On a store whose values all decode: without
    [includeErrors] the kept records are exactly the loaded ones with a
    response code in [200, 300), in store order, and [errorsIgnored]
    counts the others; with [includeErrors] every loaded record is kept,
    as many as the store has pairs, and [errorsIgnored] is 0. *)
Theorem filtering_law (E : Env) (pairs : list (string * string))
    (ds : list HTTResponse) :
  decodes pairs ds ->
  GoInt.len pairs <= GoInt.max_int ->
  let loaded := map placeholder_or_keep ds in
  (exists lg,
     load false pairs =
       inr (mkLoadState (filter is_success loaded)
                        (GoInt.len (filter (fun d => negb (is_success d)) loaded))
                        lg)) /\
  (forall r, In r (filter is_success loaded) <->
             In r loaded /\ 200 <= ResponseCode r < 300) /\
  GoInt.len (filter is_success loaded) +
    GoInt.len (filter (fun d => negb (is_success d)) loaded) = GoInt.len loaded /\
  (exists lg, load true pairs = inr (mkLoadState loaded 0 lg)) /\
  GoInt.len loaded = GoInt.len pairs.
Proof.
  intros Hd Hmax loaded. repeat split.
  - destruct (load_decoded false pairs ds Hd Hmax) as (lg & Hrun & _).
    exists lg. exact Hrun.
  - apply filter_In in H. tauto.
  - apply filter_In in H. destruct H as [_ H]. unfold is_success in H. lia.
  - apply filter_In in H. destruct H as [_ H]. unfold is_success in H. lia.
  - intros [Hin Hr]. apply filter_In. split; [assumption|].
    unfold is_success. lia.
  - unfold GoInt.len. pose proof (filter_length is_success loaded). lia.
  - destruct (load_decoded true pairs ds Hd Hmax) as (lg & Hrun & _).
    exists lg. simpl in Hrun.
    rewrite filter_all_true, filter_all_false in Hrun. exact Hrun.
  - unfold loaded, GoInt.len. rewrite length_map.
    apply Forall2_length in Hd. lia.
Qed.

Lemma filtering_law_witness :
  decodes (E := Concrete.env_mixed) (db_pairs Concrete.db_mixed)
          (map snd Concrete.table_mixed) /\
  GoInt.len (db_pairs Concrete.db_mixed) <= GoInt.max_int /\
  (exists lg,
     load (E := Concrete.env_mixed) false (db_pairs Concrete.db_mixed) =
       inr (mkLoadState
              [Concrete.response 200 "Welcome" "shots/a.png" [mkHeader "Server" "nginx"];
               Concrete.response 299 "" "shots/c.png"
                 [mkHeader "X-Id" "7"; mkHeader "SERVER" "Apache"]]
              2 lg)) /\
  (exists lg,
     load (E := Concrete.env_mixed) true (db_pairs Concrete.db_mixed) =
       inr (mkLoadState (map snd Concrete.table_mixed) 0 lg)).
Proof.
  assert (Hd : decodes (E := Concrete.env_mixed) (db_pairs Concrete.db_mixed)
                       (map snd Concrete.table_mixed))
    by (repeat constructor).
  assert (Hmax : GoInt.len (db_pairs Concrete.db_mixed) <= GoInt.max_int)
    by (vm_compute; discriminate).
  destruct (filtering_law Concrete.env_mixed _ _ Hd Hmax)
    as (Hkept & _ & _ & Hall & _).
  split; [exact Hd | split; [exact Hmax | split; [exact Hkept | exact Hall]]].
Defined.

(** C6 (placeholder), as the code has it.  A loaded record carries the
    placeholder exactly when [os.Stat] answers "does not exist"; on any
    other answer, success or another error, the record keeps its path and
    all its other fields, nothing is reported and the load goes on: a
    store whose values all decode is loaded in full, with no log call at
    error or fatal level. *)
Theorem placeholder_law (E : Env) (pairs : list (string * string))
    (ds : list HTTResponse) :
  decodes pairs ds ->
  GoInt.len pairs <= GoInt.max_int ->
  (forall d,
     (os_Stat (ScreenshotFile d) = StatNotExist ->
      ScreenshotFile (placeholder_or_keep d) = PlaceHolderImage) /\
     (os_Stat (ScreenshotFile d) <> StatNotExist ->
      placeholder_or_keep d = d) /\
     URL (placeholder_or_keep d) = URL d /\
     FinalURL (placeholder_or_keep d) = FinalURL d /\
     ResponseCode (placeholder_or_keep d) = ResponseCode d /\
     PageTitle (placeholder_or_keep d) = PageTitle d /\
     Headers (placeholder_or_keep d) = Headers d) /\
  (exists lg,
     load true pairs = inr (mkLoadState (map placeholder_or_keep ds) 0 lg) /\
     filter is_failure_call lg = []).
Proof.
  intros Hd Hmax. split.
  - intros d. unfold placeholder_or_keep, check_screenshot.
    destruct (os_Stat (ScreenshotFile d)); simpl;
      repeat split; intros; try reflexivity; congruence.
  - destruct (load_decoded true pairs ds Hd Hmax) as (lg & Hrun & Hq).
    exists lg. simpl in Hrun.
    rewrite filter_all_true, filter_all_false in Hrun. split; assumption.
Qed.

Lemma placeholder_law_witness :
  decodes (E := Concrete.env_denied) (db_pairs Concrete.db_mixed)
          (map snd Concrete.table_mixed) /\
  GoInt.len (db_pairs Concrete.db_mixed) <= GoInt.max_int /\
  (exists lg,
     load (E := Concrete.env_denied) true (db_pairs Concrete.db_mixed) =
       inr (mkLoadState
              [Concrete.response 200 "Welcome" "shots/a.png" [mkHeader "Server" "nginx"];
               Concrete.response 301 "Moved" "shots/b.png" [];
               set_ScreenshotFile
                 (Concrete.response 299 "" "shots/c.png"
                    [mkHeader "X-Id" "7"; mkHeader "SERVER" "Apache"])
                 Concrete.placeholder;
               Concrete.response 500 "" "shots/d.png" []]
              0 lg) /\
     filter is_failure_call lg = []).
Proof.
  assert (Hd : decodes (E := Concrete.env_denied) (db_pairs Concrete.db_mixed)
                       (map snd Concrete.table_mixed))
    by (repeat constructor).
  assert (Hmax : GoInt.len (db_pairs Concrete.db_mixed) <= GoInt.max_int)
    by (vm_compute; discriminate).
  destruct (placeholder_law Concrete.env_denied _ _ Hd Hmax) as (_ & Hload).
  split; [exact Hd | split; [exact Hmax | exact Hload]].
Defined.

(** C6 as the spec states it fails: the probe of [shots/a.png] ends in
    "permission denied", yet the run returns normally with no log call at
    error or fatal level, and the record is rendered as if its file were
    there. *)
Lemma stat_failure_not_surfaced :
  @os_Stat Concrete.env_denied "shots/a.png" = StatFailed "permission denied" /\
  exists o,
    Run (E := Concrete.env_denied) 10 Concrete.db_mixed 40 true = Some o /\
    out_exit o = ExitReturn /\
    filter is_failure_call (out_log o) = [] /\
    map ScreenshotFile
        (List.concat (map (fun r => ScreenShots (run_data r)) (out_pages o))) =
      ["d.png"; Concrete.placeholder; "b.png"; "a.png"].
Proof.
  split; [reflexivity|].
  eexists. split; [vm_compute; reflexivity|].
  repeat split.
Qed.

(* ================================================================= *)
(** ** Paginator *)

Lemma ceil_div_upper (n p : Z) : 0 < p -> n <= ceil_div n p * p.
Proof.
  intros Hp. unfold ceil_div.
  pose proof (Z.div_mod (n + p - 1) p ltac:(lia)) as Hdm.
  pose proof (Z.mod_pos_bound (n + p - 1) p Hp) as Hb. nia.
Qed.

Lemma ceil_div_lower (n p : Z) : 0 < p -> (ceil_div n p - 1) * p < n.
Proof.
  intros Hp. unfold ceil_div.
  pose proof (Z.div_mod (n + p - 1) p ltac:(lia)) as Hdm.
  pose proof (Z.mod_pos_bound (n + p - 1) p Hp) as Hb. nia.
Qed.

Lemma ceil_div_gt (n p k : Z) : 0 < p -> k * p < n -> k < ceil_div n p.
Proof. intros Hp Hk. pose proof (ceil_div_upper n p Hp). nia. Qed.

Lemma ceil_div_le (n p k : Z) : 0 < p -> n <= k * p -> ceil_div n p <= k.
Proof. intros Hp Hk. pose proof (ceil_div_lower n p Hp). nia. Qed.

Lemma ceil_div_le_self (n p : Z) : 0 < p -> 0 <= n -> ceil_div n p <= n.
Proof. intros Hp Hn. apply ceil_div_le; [assumption | nia]. Qed.

Lemma ceil_div_nonneg (n p : Z) : 0 < p -> 0 <= n -> 0 <= ceil_div n p.
Proof.
  intros Hp Hn. unfold ceil_div. apply Z.div_pos; lia.
Qed.

(** The step [i += pageSize] of both loops stays in range: either this is
    the first page, or a whole page lies below [i]. *)
Lemma page_step_in_range (n p i pageno : Z) :
  0 < p <= GoInt.max_int -> 0 <= n <= 2 ^ 62 ->
  0 <= pageno -> i = pageno * p -> i < n ->
  GoInt.add i p = (pageno + 1) * p /\ GoInt.add pageno 1 = pageno + 1.
Proof.
  intros Hp Hn Hk Hi Hlt.
  assert (H62 : 2 ^ 62 = 4611686018427387904) by reflexivity.
  assert (Hk' : pageno < n) by nia.
  split.
  - rewrite add_in_range; [lia|].
    assert (pageno = 0 \/ 1 <= pageno) as [-> | H1] by lia; [int_range|].
    assert (p <= i) by nia. int_range.
  - rewrite add_in_range; [lia | int_range].
Qed.

Lemma nth_error_page_numbers (count : nat) :
  forall from k, (k < count)%nat ->
    nth_error (page_numbers from count) k = Some (from + Z.of_nat k).
Proof.
  induction count as [|c IH]; intros from k Hk; [lia|].
  destruct k as [|k]; simpl.
  - f_equal. lia.
  - rewrite IH by lia. f_equal. lia.
Qed.

(** The two link targets, computed on machine integers, are the
    residues of the spec. *)
Lemma targets_in_range (pageCount p : Z) :
  1 <= pageCount <= 2 ^ 62 -> 0 <= p < pageCount ->
  prev_target p pageCount = Some ((p + pageCount - 1) mod pageCount) /\
  next_target p pageCount = Some ((p + 1) mod pageCount).
Proof.
  intros Hc Hp.
  assert (H62 : 2 ^ 62 = 4611686018427387904) by reflexivity.
  unfold prev_target, next_target, GoInt.rem.
  assert (Hz : (pageCount =? 0) = false) by (apply Z.eqb_neq; lia).
  rewrite Hz.
  rewrite (add_in_range p pageCount) by int_range.
  rewrite sub_in_range by int_range.
  rewrite (add_in_range p 1) by int_range.
  rewrite !Z.rem_mod_nonneg by lia.
  pose proof (Z.mod_pos_bound (p + pageCount - 1) pageCount ltac:(lia)).
  pose proof (Z.mod_pos_bound (p + 1) pageCount ltac:(lia)).
  rewrite !wrap_in_range by int_range.
  split; reflexivity.
Qed.

Section PaginatorFacts.

Context {E : Env}.

Variables (n pageSize : Z).
Hypothesis pageSize_pos : 0 < pageSize <= GoInt.max_int.
Hypothesis n_small : 0 <= n <= 2 ^ 62.

(** The index loop from page [pageno] on: it ends at [ceil(n / pageSize)]
    with one anchor appended per remaining page. *)
Lemma index_loop_from (fuel : nat) :
  forall i pageno s,
    0 <= pageno <= ceil_div n pageSize ->
    i = pageno * pageSize ->
    ceil_div n pageSize - pageno < Z.of_nat fuel ->
    index_loop fuel n pageSize i pageno s =
      Some (ceil_div n pageSize,
            index_string s
              (page_numbers pageno (Z.to_nat (ceil_div n pageSize - pageno)))).
Proof.
  induction fuel as [|fuel IH]; intros i pageno s Hk Hi Hfuel; [lia|].
  simpl. destruct (i <? n) eqn:Hlt.
  - apply Z.ltb_lt in Hlt.
    destruct (page_step_in_range n pageSize i pageno) as [Hi' Hk'];
      try assumption; try lia.
    rewrite Hi', Hk'.
    assert (Hc : pageno < ceil_div n pageSize)
      by (apply ceil_div_gt; lia).
    rewrite IH by lia.
    replace (Z.to_nat (ceil_div n pageSize - pageno))
      with (S (Z.to_nat (ceil_div n pageSize - (pageno + 1)))) by lia.
    reflexivity.
  - apply Z.ltb_ge in Hlt.
    assert (Hc : ceil_div n pageSize <= pageno)
      by (apply ceil_div_le; lia).
    replace pageno with (ceil_div n pageSize) by lia.
    rewrite Z.sub_diag. reflexivity.
Qed.

Variable entries : list HTTResponse.
Hypothesis entries_len : GoInt.len entries = n.

Variables (pageIndex : string) (ignored : Z).

Let pageCount : Z := ceil_div n pageSize.

(** The body of the render loop builds the page of the spec. *)
Lemma page_data_spec (i pageno : Z) :
  0 <= pageno -> i = pageno * pageSize -> i < n ->
  page_data entries pageSize pageCount pageIndex ignored i pageno =
    Some (spec_page entries pageSize pageCount pageIndex ignored pageno).
Proof.
  intros Hk Hi Hlt.
  assert (H62 : 2 ^ 62 = 4611686018427387904) by reflexivity.
  assert (Hc : pageno < pageCount) by (apply ceil_div_gt; lia).
  assert (Hcn : pageCount <= n) by (apply ceil_div_le_self; lia).
  unfold page_data.
  destruct (targets_in_range pageCount pageno) as [Hprev Hnext]; try lia.
  rewrite Hprev, Hnext, entries_len.
  rewrite sub_in_range by int_range.
  set (end1 := if pageSize <? n - i then pageSize else n - i).
  assert (Hend : end1 = Z.min n ((pageno + 1) * pageSize) - pageno * pageSize).
  { unfold end1. destruct (pageSize <? n - i) eqn:Hlt'.
    - apply Z.ltb_lt in Hlt'. lia.
    - apply Z.ltb_ge in Hlt'. lia. }
  assert (Hend0 : 0 < end1 <= n - i) by lia.
  rewrite add_in_range by int_range.
  unfold GoInt.slice. rewrite entries_len.
  replace ((0 <=? i) && (i <=? i + end1) && (i + end1 <=? n)) with true
    by (symmetry; rewrite !andb_true_iff, !Z.leb_le; lia).
  unfold spec_page, spec_slice. rewrite entries_len.
  replace (i + end1 - i) with end1 by lia.
  rewrite Hend, Hi. reflexivity.
Qed.

(** The render loop from page [pageno] on renders the remaining pages
    of the spec in ascending order and does not panic. *)
Lemma render_loop_from (fuel : nat) :
  forall i pageno,
    0 <= pageno <= pageCount ->
    i = pageno * pageSize ->
    pageCount - pageno < Z.of_nat fuel ->
    render_loop fuel entries pageSize pageCount pageIndex ignored i pageno =
      Some (map (fun p => render_page
                   (spec_page entries pageSize pageCount pageIndex ignored p))
                (page_numbers pageno (Z.to_nat (pageCount - pageno))),
            false).
Proof.
  induction fuel as [|fuel IH]; intros i pageno Hk Hi Hfuel; [lia|].
  simpl. rewrite entries_len. destruct (i <? n) eqn:Hlt.
  - apply Z.ltb_lt in Hlt.
    rewrite page_data_spec by lia.
    destruct (page_step_in_range n pageSize i pageno) as [Hi' Hk'];
      try assumption; try lia.
    rewrite Hi', Hk'.
    assert (Hc : pageno < pageCount) by (apply ceil_div_gt; lia).
    rewrite IH by lia.
    replace (Z.to_nat (pageCount - pageno))
      with (S (Z.to_nat (pageCount - (pageno + 1)))) by lia.
    reflexivity.
  - apply Z.ltb_ge in Hlt.
    assert (Hc : pageCount <= pageno) by (apply ceil_div_le; lia).
    replace pageno with pageCount by lia.
    rewrite Z.sub_diag. reflexivity.
Qed.

(** The slices of the pages from [k] on, put end to end, are the list
    from index [k * pageSize] on. *)
Lemma slices_concat (m : nat) :
  forall k, 0 <= k -> Z.of_nat m = pageCount - k ->
    List.concat (map (spec_slice entries pageSize) (page_numbers k m)) =
    skipn (Z.to_nat (k * pageSize)) entries.
Proof.
  unfold GoInt.len in entries_len.
  induction m as [|m IH]; intros k Hk Hm.
  - simpl. symmetry. apply skipn_all2.
    assert (n <= k * pageSize).
    { replace k with pageCount by lia. apply ceil_div_upper. lia. }
    lia.
  - simpl. rewrite IH by lia.
    assert (Hlt : k * pageSize < n).
    { pose proof (ceil_div_lower n pageSize ltac:(lia)).
      fold pageCount in H. nia. }
    unfold spec_slice, GoInt.len. rewrite entries_len.
    destruct (Z.le_gt_cases ((k + 1) * pageSize) n) as [Hfull | Hlast].
    + rewrite Z.min_r by lia.
      replace (Z.to_nat ((k + 1) * pageSize))
        with (Z.to_nat ((k + 1) * pageSize - k * pageSize) +
              Z.to_nat (k * pageSize))%nat by lia.
      rewrite <- skipn_skipn. apply firstn_skipn.
    + rewrite Z.min_l by lia.
      rewrite (skipn_all2 (n := Z.to_nat ((k + 1) * pageSize))) by lia.
      rewrite app_nil_r. apply firstn_all2.
      rewrite length_skipn. lia.
Qed.

End PaginatorFacts.

(** Why the page size has to be positive: with [pageSize = 0] the index
    loop never leaves [i = 0], whatever the fuel. *)
Remark index_loop_zero_page_size (fuel : nat) :
  forall n pageno pageIndex,
    0 < n -> index_loop fuel n 0 0 pageno pageIndex = None.
Proof.
  induction fuel as [|fuel IH]; intros n pageno pageIndex Hn; [reflexivity|].
  simpl. replace (0 <? n) with true by (symmetry; apply Z.ltb_lt; exact Hn).
  change (GoInt.add 0 0) with 0. apply IH. exact Hn.
Qed.

(** C1 (paginator).  For a list of [N] records and a page size [P > 0]
    (both as the machine holds them: [P] an [int], [N] at most [2^62]),
    with fuel for more than [N] iterations: the index loop counts
    [ceil(N / P)] pages, the render loop renders as many without a panic,
    page [p] carries the number [p] and the slice
    [kept[p*P : min(N, (p+1)*P)]], and the slices put end to end in page
    order are the list itself. *)
Theorem pagination_law (E : Env) (kept : list HTTResponse) (P : Z)
    (pageIndex : string) (ignored : Z) (fuel : nat) :
  0 < P <= GoInt.max_int ->
  GoInt.len kept <= 2 ^ 62 ->
  (List.length kept < fuel)%nat ->
  let N := GoInt.len kept in
  let pageCount := ceil_div N P in
  (pageCount - 1) * P < N <= pageCount * P /\
  (exists index, index_loop fuel N P 0 0 "" = Some (pageCount, index)) /\
  exists runs,
    render_loop fuel kept P pageCount pageIndex ignored 0 0 = Some (runs, false) /\
    GoInt.len runs = pageCount /\
    (forall p, 0 <= p < pageCount ->
       exists r, nth_error runs (Z.to_nat p) = Some r /\
                 PageNumber (run_data r) = p /\
                 ScreenShots (run_data r) = spec_slice kept P p) /\
    List.concat (shots_of runs) = kept.
Proof.
  intros HP HN Hfuel N pageCount.
  pose proof (len_nonneg kept) as HN0. fold N in HN0, HN.
  assert (Hc0 : 0 <= pageCount) by (apply ceil_div_nonneg; lia).
  assert (HcN : pageCount <= N) by (apply ceil_div_le_self; lia).
  assert (HfuelZ : pageCount - 0 < Z.of_nat fuel)
    by (unfold N, GoInt.len in HcN; lia).
  split; [split; [apply ceil_div_lower | apply ceil_div_upper]; lia|].
  split.
  - eexists. apply index_loop_from; try lia.
  - eexists. split; [apply render_loop_from; try reflexivity; lia|].
    rewrite Z.sub_0_r. repeat split.
    + unfold GoInt.len. rewrite length_map.
      assert (Hlen : forall c from, List.length (page_numbers from c) = c)
        by (induction c; intros; simpl; auto).
      rewrite Hlen. lia.
    + intros p Hp. unfold pageCount in Hp. eexists. split; [|split].
      * rewrite nth_error_map, nth_error_page_numbers by lia. reflexivity.
      * simpl. unfold render_page.
        destruct (template_Execute _). simpl. lia.
      * simpl. unfold render_page.
        destruct (template_Execute _). simpl.
        rewrite Z2Nat.id by lia. reflexivity.
    + unfold shots_of. rewrite map_map.
      pose proof (slices_concat N P HP (conj HN0 HN) kept eq_refl
                                (Z.to_nat pageCount) 0 (Z.le_refl 0)) as Hcat.
      simpl in Hcat. etransitivity; [|apply Hcat; unfold pageCount; lia].
      f_equal. apply map_ext. intros p. unfold render_page.
      destruct (template_Execute _). reflexivity.
Qed.

Lemma pagination_law_witness :
  0 < 40 <= GoInt.max_int /\
  GoInt.len Concrete.kept_85 <= 2 ^ 62 /\
  (List.length Concrete.kept_85 < 100)%nat /\
  ceil_div (GoInt.len Concrete.kept_85) 40 = 3 /\
  exists runs,
    render_loop (E := Concrete.env_85) 100 Concrete.kept_85 40 3 "" 0 0 0 =
      Some (runs, false) /\
    GoInt.len runs = 3 /\
    List.concat (shots_of runs) = Concrete.kept_85.
Proof.
  assert (HP : 0 < 40 <= GoInt.max_int) by (rewrite max_int_value; lia).
  assert (HN : GoInt.len Concrete.kept_85 <= 2 ^ 62)
    by (vm_compute; discriminate).
  assert (Hfuel : (List.length Concrete.kept_85 < 100)%nat)
    by (apply Nat.ltb_lt; vm_compute; reflexivity).
  destruct (pagination_law Concrete.env_85 Concrete.kept_85 40 "" 0 100 HP HN Hfuel)
    as (_ & _ & runs & Hrun & Hlen & _ & Hcat).
  split; [exact HP | split; [exact HN | split; [exact Hfuel | split]]].
  - vm_compute. reflexivity.
  - exists runs. split; [exact Hrun | split; [exact Hlen | exact Hcat]].
Defined.

(** The 85-record scenario of the spec, run end to end: three pages
    holding 40, 40 and 5 records, written to [./page-0.html],
    [./page-1.html] and [./page-2.html]. *)
Example run_85_records :
  exists o,
    Run (E := Concrete.env_85) 100 Concrete.db_85 40 false = Some o /\
    out_exit o = ExitReturn /\
    map (fun l => List.length l) (shots_of (out_pages o)) = [40; 40; 5]%nat /\
    map fst (files_written o) = ["./page-0.html"; "./page-1.html"; "./page-2.html"] /\
    map (fun r => PagePrev (run_data r)) (out_pages o) =
      [prev_link 2; prev_link 0; prev_link 1].
Proof.
  eexists. split; [vm_compute; reflexivity|].
  repeat split.
Qed.

(** C5 (navigation).  For a page count between 1 and [2^62] and a page
    [p] below it, the targets the render loop computes for the two links
    are [(p + pageCount - 1) mod pageCount] and [(p + 1) mod pageCount],
    and the page handed to the template carries the links to them; the
    previous page of page 0 is the last page and the next page of the
    last page is page 0. *)
Theorem navigation_circular (pageCount p : Z) :
  1 <= pageCount <= 2 ^ 62 ->
  0 <= p < pageCount ->
  prev_target p pageCount = Some ((p + pageCount - 1) mod pageCount) /\
  next_target p pageCount = Some ((p + 1) mod pageCount) /\
  prev_target 0 pageCount = Some (pageCount - 1) /\
  next_target (pageCount - 1) pageCount = Some 0 /\
  (forall entries pageSize pageIndex ignored i td,
     page_data entries pageSize pageCount pageIndex ignored i p = Some td ->
     PagePrev td = prev_link ((p + pageCount - 1) mod pageCount) /\
     PageNext td = next_link ((p + 1) mod pageCount)).
Proof.
  intros Hc Hp.
  destruct (targets_in_range pageCount p Hc Hp) as [Hprev Hnext].
  destruct (targets_in_range pageCount 0 Hc ltac:(lia)) as [Hprev0 _].
  destruct (targets_in_range pageCount (pageCount - 1) Hc ltac:(lia))
    as [_ Hnext1].
  repeat split; try assumption.
  - rewrite Hprev0. f_equal. simpl.
    rewrite Z.mod_small; lia.
  - rewrite Hnext1. f_equal.
    replace (pageCount - 1 + 1) with pageCount by lia.
    apply Z.mod_same. lia.
  - unfold page_data in H. rewrite Hprev, Hnext in H.
    destruct (GoInt.slice _ _ _); inversion H. reflexivity.
  - unfold page_data in H. rewrite Hprev, Hnext in H.
    destruct (GoInt.slice _ _ _); inversion H. reflexivity.
Qed.

Lemma navigation_circular_witness :
  1 <= 5 <= 2 ^ 62 /\ 0 <= 4 < 5 /\
  prev_target 0 5 = Some 4 /\ next_target 4 5 = Some 0.
Proof.
  assert (Hc : 1 <= 5 <= 2 ^ 62) by (split; [lia | vm_compute; discriminate]).
  assert (Hp : 0 <= 4 < 5) by lia.
  destruct (navigation_circular 5 4 Hc Hp) as (_ & _ & Hprev & Hnext & _).
  split; [exact Hc | split; [exact Hp | split; [exact Hprev | exact Hnext]]].
Defined.

(* ================================================================= *)
(** ** Bytewise string order *)

Lemma ascii_compare_refl (c : ascii) : Ascii.compare c c = Eq.
Proof. unfold Ascii.compare. apply N.compare_refl. Qed.

Lemma string_compare_refl (s : string) : String.compare s s = Eq.
Proof.
  induction s as [|c s IH]; simpl; [reflexivity|].
  rewrite ascii_compare_refl. exact IH.
Qed.

Lemma ascii_compare_lt_trans (a b c : ascii) :
  Ascii.compare a b = Lt -> Ascii.compare b c = Lt -> Ascii.compare a c = Lt.
Proof.
  unfold Ascii.compare. rewrite !N.compare_lt_iff. lia.
Qed.

Lemma string_compare_lt_trans (x : string) :
  forall y z, String.compare x y = Lt -> String.compare y z = Lt ->
              String.compare x z = Lt.
Proof.
  induction x as [|a x IH]; intros [|b y] [|c z]; simpl; try congruence.
  destruct (Ascii.compare a b) eqn:Hab; try discriminate;
    destruct (Ascii.compare b c) eqn:Hbc; try discriminate; intros Hxy Hyz.
  - apply Ascii.compare_eq_iff in Hab, Hbc. subst.
    rewrite ascii_compare_refl. eapply IH; eassumption.
  - apply Ascii.compare_eq_iff in Hab. subst. rewrite Hbc. reflexivity.
  - apply Ascii.compare_eq_iff in Hbc. subst. rewrite Hab. reflexivity.
  - rewrite (ascii_compare_lt_trans a b c Hab Hbc). reflexivity.
Qed.

Lemma ltb_irrefl (s : string) : String.ltb s s = false.
Proof. unfold String.ltb. rewrite string_compare_refl. reflexivity. Qed.

Lemma ltb_asym (x y : string) : String.ltb x y = true -> String.ltb y x = false.
Proof.
  unfold String.ltb. rewrite (String.compare_antisym y x).
  destruct (String.compare x y); simpl; congruence.
Qed.

Lemma ltb_trans (x y z : string) :
  String.ltb x y = true -> String.ltb y z = true -> String.ltb x z = true.
Proof.
  unfold String.ltb. intros Hxy Hyz.
  destruct (String.compare x y) eqn:H1; try discriminate.
  destruct (String.compare y z) eqn:H2; try discriminate.
  rewrite (string_compare_lt_trans x y z H1 H2). reflexivity.
Qed.

(** Two strings neither of which is below the other are the same. *)
Lemma ltb_total (x y : string) :
  String.ltb x y = false -> String.ltb y x = false -> x = y.
Proof.
  unfold String.ltb. rewrite (String.compare_antisym y x).
  destruct (String.compare x y) eqn:H; simpl; try discriminate; intros _ _.
  apply String.compare_eq_iff. exact H.
Qed.

Lemma ltb_negtrans (x y z : string) :
  String.ltb y x = false -> String.ltb z y = false -> String.ltb z x = false.
Proof.
  intros Hyx Hzy. destruct (String.ltb z x) eqn:Hzx; [|reflexivity].
  destruct (String.ltb x y) eqn:Hxy.
  - rewrite (ltb_trans z x y Hzx Hxy) in Hzy. discriminate.
  - assert (x = y) by (apply ltb_total; assumption). subst. congruence.
Qed.

Lemma ltb_empty_l (s : string) : String.ltb "" s = negb (String.eqb s "").
Proof. destruct s; reflexivity. Qed.

Lemma ltb_empty_r (s : string) : String.ltb s "" = false.
Proof. destruct s; reflexivity. Qed.

(** Comparing a string key with [<] is a strict weak order. *)
Lemma key_less_strict_weak {A : Type} (key : A -> string) :
  StrictWeak (fun a b => String.ltb (key a) (key b)).
Proof.
  split.
  - intros a b. apply ltb_asym.
  - intros a b c. apply ltb_negtrans.
Qed.

Lemma key_equiv_under {A : Type} (key : A -> string) (x y : A) :
  equiv_under (fun a b => String.ltb (key a) (key b)) x y =
  String.eqb (key x) (key y).
Proof.
  unfold equiv_under.
  destruct (String.eqb_spec (key x) (key y)) as [Heq | Hne].
  - rewrite Heq, ltb_irrefl. reflexivity.
  - destruct (String.ltb (key x) (key y)) eqn:H1; [reflexivity|].
    destruct (String.ltb (key y) (key x)) eqn:H2; [reflexivity|].
    exfalso. apply Hne. apply ltb_total; assumption.
Qed.

(* ================================================================= *)
(** ** The concrete sorts meet the contract *)

Section SortFacts.

Context {A : Type} (less : A -> A -> bool).
Hypothesis less_sw : StrictWeak less.

Let ge (a b : A) : Prop := less a b = false.
Let le (a b : A) : Prop := less b a = false.

Lemma equiv_not_less (x y z : A) :
  equiv_under less x y = true -> equiv_under less x z = true ->
  less y z = false.
Proof.
  unfold equiv_under. rewrite !andb_true_iff, !negb_true_iff.
  intros [_ Hyx] [Hxz _]. exact (sw_negtrans less less_sw z x y Hxz Hyx).
Qed.

Lemma insert_back_perm (x : A) (rp : list A) :
  Permutation (x :: rp) (Concrete.insert_back less x rp).
Proof.
  induction rp as [|y rp IH]; simpl; [reflexivity|].
  destruct (less x y); [|reflexivity].
  rewrite perm_swap. constructor. exact IH.
Qed.

Lemma insert_back_sorted (x : A) (rp : list A) :
  StronglySorted ge rp -> StronglySorted ge (Concrete.insert_back less x rp).
Proof.
  induction 1 as [|y rp Hs IH Hy]; simpl.
  - repeat constructor.
  - destruct (less x y) eqn:Hxy.
    + constructor; [exact IH|].
      eapply Permutation_Forall; [apply insert_back_perm|].
      constructor; [|exact Hy].
      exact (sw_asym less less_sw x y Hxy).
    + constructor; [constructor; assumption|].
      constructor; [exact Hxy|].
      eapply Forall_impl; [|exact Hy]. intros w Hw.
      exact (sw_negtrans less less_sw w y x Hw Hxy).
Qed.

Lemma fold_insert_perm (l : list A) :
  forall rp, Permutation (rev rp ++ l)
               (fold_left (fun rp x => Concrete.insert_back less x rp) l rp).
Proof.
  induction l as [|x l IH]; intros rp; simpl.
  - rewrite app_nil_r. symmetry. apply Permutation_rev.
  - rewrite <- IH. rewrite <- (Permutation_rev (Concrete.insert_back less x rp)).
    rewrite <- insert_back_perm. rewrite <- Permutation_rev.
    symmetry. apply Permutation_middle.
Qed.

Lemma fold_insert_sorted (l : list A) :
  forall rp, StronglySorted ge rp ->
    StronglySorted ge (fold_left (fun rp x => Concrete.insert_back less x rp) l rp).
Proof.
  induction l as [|x l IH]; intros rp Hs; simpl; [exact Hs|].
  apply IH. apply insert_back_sorted. exact Hs.
Qed.

Lemma sorted_snoc (R : A -> A -> Prop) (l : list A) (x : A) :
  StronglySorted R l -> Forall (fun a => R a x) l ->
  StronglySorted R (l ++ [x]).
Proof.
  induction 1 as [|y l Hs IH Hy]; intros Hx; simpl.
  - repeat constructor.
  - inversion Hx; subst. constructor; [apply IH; assumption|].
    apply Forall_app. split; [exact Hy | repeat constructor; assumption].
Qed.

Lemma sorted_rev (l : list A) : StronglySorted ge l -> StronglySorted le (rev l).
Proof.
  induction 1 as [|y l Hs IH Hy]; simpl; [constructor|].
  apply sorted_snoc; [exact IH|].
  apply Forall_rev. exact Hy.
Qed.

Lemma insertionSort_perm (l : list A) :
  Permutation l (Concrete.insertionSort less l).
Proof.
  unfold Concrete.insertionSort. rewrite <- Permutation_rev.
  exact (fold_insert_perm l []).
Qed.

Lemma insertionSort_sorted (l : list A) :
  StronglySorted le (Concrete.insertionSort less l).
Proof.
  unfold Concrete.insertionSort. apply sorted_rev.
  apply fold_insert_sorted. constructor.
Qed.

(** Insertion keeps equivalent elements in their order: an element
    only moves past the ones it is less than. *)
Lemma insert_back_stable (x y : A) (rp : list A) :
  filter (equiv_under less x) (rev (Concrete.insert_back less y rp)) =
  filter (equiv_under less x) (rev rp ++ [y]).
Proof.
  induction rp as [|z rp IH]; simpl; [reflexivity|].
  destruct (less y z) eqn:Hyz; simpl; [|reflexivity].
  rewrite !filter_app, IH, !filter_app, <- !app_assoc. f_equal. simpl.
  destruct (equiv_under less x y) eqn:Hy;
    destruct (equiv_under less x z) eqn:Hz; try reflexivity.
  rewrite (equiv_not_less x y z Hy Hz) in Hyz. discriminate.
Qed.

Lemma fold_insert_stable (x : A) (l : list A) :
  forall rp,
    filter (equiv_under less x)
           (rev (fold_left (fun rp y => Concrete.insert_back less y rp) l rp)) =
    filter (equiv_under less x) (rev rp ++ l).
Proof.
  induction l as [|y l IH]; intros rp; simpl.
  - rewrite app_nil_r. reflexivity.
  - rewrite IH, filter_app, insert_back_stable, <- filter_app, <- app_assoc.
    reflexivity.
Qed.

Lemma insertionSort_stable (x : A) (l : list A) :
  filter (equiv_under less x) (Concrete.insertionSort less l) =
  filter (equiv_under less x) l.
Proof. unfold Concrete.insertionSort. apply (fold_insert_stable x l []). Qed.

Lemma gap_swap_perm (front : list A) :
  forall back,
    Permutation (front ++ back)
                (fst (Concrete.gap_swap less front back) ++
                 snd (Concrete.gap_swap less front back)).
Proof.
  induction front as [|a front IH]; intros [|b back]; simpl;
    try reflexivity.
  specialize (IH back).
  destruct (Concrete.gap_swap less front back) as [f k]. simpl in IH.
  assert (Hmid : Permutation (a :: front ++ b :: back)
                             (a :: b :: front ++ back))
    by (constructor; symmetry; apply Permutation_middle).
  destruct (less b a); simpl; rewrite Hmid.
  - rewrite perm_swap. constructor. rewrite IH. apply Permutation_middle.
  - constructor. rewrite IH. apply Permutation_middle.
Qed.

Lemma shell_pass_perm (l : list A) : Permutation l (Concrete.shell_pass less l).
Proof.
  unfold Concrete.shell_pass.
  pose proof (gap_swap_perm (firstn 6 l) (firstn 6 (skipn 6 l))) as Hp.
  destruct (Concrete.gap_swap less (firstn 6 l) (firstn 6 (skipn 6 l)))
    as [f k]. cbn [fst snd] in Hp.
  rewrite app_assoc, <- Hp, <- app_assoc.
  replace (skipn 12 l) with (skipn 6 (skipn 6 l))
    by (rewrite skipn_skipn; reflexivity).
  rewrite !firstn_skipn. reflexivity.
Qed.

End SortFacts.

Lemma insertionSort_contract :
  SortSliceContract (fun less => Concrete.insertionSort less).
Proof.
  intros less l Hsw. split.
  - apply insertionSort_perm.
  - apply insertionSort_sorted. exact Hsw.
Qed.

Lemma insertionSort_is_stable :
  StableSort (fun less => Concrete.insertionSort less).
Proof. intros less l x Hsw. apply insertionSort_stable. exact Hsw. Qed.

(** The Shell pass does not endanger the contract: what follows it is
    a full insertion sort. *)
Lemma shell_insertion_sort_contract :
  SortSliceContract (fun less => Concrete.shell_insertion_sort less).
Proof.
  intros less l Hsw. unfold Concrete.shell_insertion_sort. split.
  - rewrite <- insertionSort_perm. apply shell_pass_perm.
  - apply insertionSort_sorted. exact Hsw.
Qed.

(* ================================================================= *)
(** ** Sorter *)

Lemma sorted_skipn {A : Type} (R : A -> A -> Prop) (k : nat) :
  forall l, StronglySorted R l -> StronglySorted R (skipn k l).
Proof.
  induction k as [|k IH]; intros l Hs; [exact Hs|].
  destruct l as [|x l]; [constructor|].
  simpl. apply IH. inversion Hs; assumption.
Qed.

Lemma skipn_nth_error {A : Type} (k : nat) :
  forall (l : list A) x, nth_error l k = Some x ->
    skipn k l = x :: skipn (S k) l.
Proof.
  induction k as [|k IH]; intros [|y l] x H; simpl in *; try discriminate.
  - congruence.
  - apply IH. exact H.
Qed.

(** In a sorted list an element at a smaller index is in relation with
    one at a larger index. *)
Lemma sorted_nth_error {A : Type} (R : A -> A -> Prop) (l : list A) :
  StronglySorted R l ->
  forall i j a b, (i < j)%nat ->
    nth_error l i = Some a -> nth_error l j = Some b -> R a b.
Proof.
  induction 1 as [|x l Hs IH Hx]; intros i j a b Hij Ha Hb.
  - destruct i; discriminate.
  - destruct j as [|j]; [lia|]. simpl in Hb.
    destruct i as [|i]; simpl in Ha.
    + inversion Ha; subst. rewrite Forall_forall in Hx.
      apply Hx. eapply nth_error_In. exact Hb.
    + eapply IH; [|exact Ha | exact Hb]. lia.
Qed.

Lemma filter_andb {A : Type} (f g : A -> bool) (l : list A) :
  filter (fun y => f y && g y) l = filter g (filter f l).
Proof.
  induction l as [|x l IH]; simpl; [reflexivity|].
  destruct (f x); simpl; [destruct (g x)|]; rewrite IH; reflexivity.
Qed.

Section SorterFacts.

Context {E : Env}.

Hypothesis sort_contract : SortSliceContract sort_Slice.

Lemma title_less_sw : StrictWeak title_less.
Proof. exact (key_less_strict_weak (fun r => ToLower (PageTitle r))). Qed.

Lemma server_less_sw : StrictWeak server_less.
Proof. exact (key_less_strict_weak server_key). Qed.

Lemma sort_Slice_nil (less : HTTResponse -> HTTResponse -> bool) :
  StrictWeak less -> sort_Slice less [] = [].
Proof.
  intros Hsw. destruct (sort_contract less [] Hsw) as [Hp _].
  apply Permutation_nil. exact Hp.
Qed.

Lemma sorter_perm (kept : list HTTResponse) : Permutation kept (sorter kept).
Proof.
  unfold sorter.
  destruct (sort_contract title_less kept title_less_sw) as [Hperm1 _].
  set (l1 := sort_Slice title_less kept) in *.
  set (n := Z.to_nat (lastSortIndex l1)).
  destruct (sort_contract server_less (firstn n l1) server_less_sw)
    as [Hperm2 _].
  rewrite Hperm1. rewrite <- (firstn_skipn n l1) at 1.
  apply Permutation_app_tail. exact Hperm2.
Qed.

Lemma sorter_len (kept : list HTTResponse) :
  GoInt.len (sorter kept) = GoInt.len kept.
Proof.
  unfold GoInt.len. rewrite <- (Permutation_length (sorter_perm kept)).
  reflexivity.
Qed.

(** The loops of the second comparison keep the value of the last
    matching header. *)
Lemma server_of_last (hs : list HTTPHeader) :
  forall start,
    fold_left
      (fun server h =>
         if String.eqb (ToLower (Key h)) "server"
         then ToLower (Value h) else server) hs start =
    match rev (filter is_server hs) with
    | [] => start
    | h :: _ => ToLower (Value h)
    end.
Proof.
  induction hs as [|h hs IH]; intros start; simpl; [reflexivity|].
  rewrite IH. unfold is_server at 2.
  destruct (String.eqb (ToLower (Key h)) "server"); [|reflexivity].
  simpl. destruct (rev (filter is_server hs)); reflexivity.
Qed.

(** The scan on a list without a titled record never breaks. *)
Lemma scan_untitled (l : list HTTResponse) :
  Forall (fun r => untitled r = true) l ->
  forall i, scan_titled i l = None.
Proof.
  induction 1 as [|r l Hr _ IH]; intros i; simpl; [reflexivity|].
  unfold untitled in Hr. rewrite Hr. simpl. apply IH.
Qed.

(** Where the scan breaks: at the first titled record. *)
Lemma scan_breaks (l : list HTTResponse) :
  forall i j,
    0 <= i -> i + GoInt.len l <= GoInt.max_int ->
    scan_titled i l = Some j ->
    exists k r,
      j = i + Z.of_nat k /\
      Forall (fun r => untitled r = true) (firstn k l) /\
      nth_error l k = Some r /\ untitled r = false.
Proof.
  induction l as [|x l IH]; intros i j Hi Hmax Hscan; simpl in Hscan;
    [discriminate|].
  rewrite len_cons in Hmax. pose proof (len_nonneg l) as Hl.
  destruct (String.eqb (PageTitle x) "") eqn:Hx; simpl in Hscan.
  - rewrite add_in_range in Hscan by int_range.
    destruct (IH (i + 1) j) as (k & r & Hj & Hpre & Hnth & Hr);
      try lia; try assumption.
    exists (S k), r. repeat split; try assumption; [lia|].
    simpl. constructor; assumption.
  - inversion Hscan; subst. exists O, x.
    repeat split; try assumption; [lia | constructor].
Qed.

Lemma scan_none (l : list HTTResponse) :
  forall i, scan_titled i l = None -> Forall (fun r => untitled r = true) l.
Proof.
  induction l as [|x l IH]; intros i Hscan; [constructor|].
  simpl in Hscan.
  destruct (String.eqb (PageTitle x) "") eqn:Hx; simpl in Hscan;
    [|discriminate].
  constructor; [exact Hx | eapply IH; exact Hscan].
Qed.

Hypothesis lower_laws : ToLowerLaws ToLower.

Lemma lower_untitled (r : HTTResponse) :
  String.eqb (ToLower (PageTitle r)) "" = untitled r.
Proof.
  destruct lower_laws as [H0 Hinv]. unfold untitled.
  destruct (String.eqb_spec (PageTitle r) "") as [Heq | Hne].
  - rewrite Heq, H0. reflexivity.
  - apply String.eqb_neq. intros H. apply Hne, Hinv, H.
Qed.

(** Behind a titled record of a title-sorted list all records are
    titled: the empty title is the least. *)
Lemma titled_suffix (l : list HTTResponse) (k : nat) (r : HTTResponse) :
  StronglySorted (fun a b => title_less b a = false) l ->
  nth_error l k = Some r -> untitled r = false ->
  Forall (fun y => untitled y = false) (skipn k l).
Proof.
  intros Hs Hnth Hr. rewrite (skipn_nth_error k l r Hnth).
  constructor; [exact Hr|].
  apply (sorted_skipn _ k) in Hs. rewrite (skipn_nth_error k l r Hnth) in Hs.
  inversion Hs as [|? ? _ Hall]; subst.
  eapply Forall_impl; [|exact Hall]. intros y Hy. unfold title_less in Hy.
  rewrite <- lower_untitled in Hr |- *.
  destruct (String.eqb_spec (ToLower (PageTitle y)) "") as [Heq|]; [|reflexivity].
  rewrite Heq, ltb_empty_l, Hr in Hy. discriminate.
Qed.

(** The title-sorted list splits at [lastSortIndex] into the untitled
    and the titled records, unless no record is titled. *)
Lemma title_sorted_split (kept : list HTTResponse) :
  GoInt.len kept <= GoInt.max_int ->
  let l1 := sort_Slice title_less kept in
  let n := Z.to_nat (lastSortIndex l1) in
  (Forall (fun r => untitled r = true) l1 /\ n = O) \/
  (Forall (fun r => untitled r = true) (firstn n l1) /\
   Forall (fun r => untitled r = false) (skipn n l1) /\
   exists r, In r kept /\ untitled r = false).
Proof.
  intros Hmax l1 n. destruct (sort_contract title_less kept title_less_sw)
    as [Hperm Hsorted]. fold l1 in Hperm, Hsorted.
  unfold n, lastSortIndex. destruct (scan_titled 0 l1) as [j|] eqn:Hscan.
  - right.
    destruct (scan_breaks l1 0 j) as (k & r & Hj & Hpre & Hnth & Hr);
      try assumption; try lia.
    { unfold GoInt.len in *. rewrite <- (Permutation_length Hperm). lia. }
    replace (Z.to_nat j) with k by lia.
    split; [exact Hpre|]. split; [eapply titled_suffix; eassumption|].
    exists r. split; [|exact Hr].
    eapply Permutation_in; [symmetry; exact Hperm|].
    eapply nth_error_In. exact Hnth.
  - left. split; [eapply scan_none; exact Hscan | reflexivity].
Qed.

End SorterFacts.

Lemma ascii_ToLower_laws : ToLowerLaws Concrete.ascii_ToLower.
Proof.
  split; [reflexivity|]. intros [|c s] H; [reflexivity | discriminate].
Qed.

Lemma untitled_true (r : HTTResponse) : untitled r = true <-> PageTitle r = "".
Proof. unfold untitled. apply String.eqb_eq. Qed.

Lemma untitled_false (r : HTTResponse) : untitled r = false <-> PageTitle r <> "".
Proof. unfold untitled. apply String.eqb_neq. Qed.

(** C10 (all records untitled).  When no kept record has a title the
    scan never breaks, [lastSortIndex] stays 0, the second sort gets the
    empty slice and the result is the title-sorted list as it is. *)
Theorem all_untitled_no_secondary_sort (E : Env) (kept : list HTTResponse) :
  SortSliceContract sort_Slice ->
  Forall (fun r => PageTitle r = "") kept ->
  let l1 := sort_Slice title_less kept in
  scan_titled 0 l1 = None /\
  lastSortIndex l1 = 0 /\
  firstn (Z.to_nat (lastSortIndex l1)) l1 = [] /\
  sorter kept = l1.
Proof.
  intros Hc Hall l1.
  destruct (Hc title_less kept title_less_sw) as [Hperm _]. fold l1 in Hperm.
  assert (Hscan : scan_titled 0 l1 = None).
  { apply scan_untitled. eapply Permutation_Forall; [exact Hperm|].
    eapply Forall_impl; [|exact Hall]. intros r. apply untitled_true. }
  assert (Hidx : lastSortIndex l1 = 0) by (unfold lastSortIndex; rewrite Hscan; reflexivity).
  repeat split; try assumption.
  - rewrite Hidx. reflexivity.
  - unfold sorter. fold l1. rewrite Hidx. simpl.
    rewrite (sort_Slice_nil Hc server_less server_less_sw). reflexivity.
Qed.

Lemma all_untitled_no_secondary_sort_witness :
  SortSliceContract (@sort_Slice Concrete.env_insertion) /\
  Forall (fun r => PageTitle r = "") [Concrete.rec_nginx; Concrete.rec_apache] /\
  sorter (E := Concrete.env_insertion) [Concrete.rec_nginx; Concrete.rec_apache] =
    @sort_Slice Concrete.env_insertion (@title_less Concrete.env_insertion)
                [Concrete.rec_nginx; Concrete.rec_apache].
Proof.
  assert (Hc : SortSliceContract (@sort_Slice Concrete.env_insertion))
    by exact insertionSort_contract.
  assert (Hall : Forall (fun r => PageTitle r = "")
                        [Concrete.rec_nginx; Concrete.rec_apache])
    by (repeat constructor).
  destruct (all_untitled_no_secondary_sort Concrete.env_insertion _ Hc Hall)
    as (_ & _ & _ & Hsame).
  split; [exact Hc | split; [exact Hall | exact Hsame]].
Defined.

Lemma firstn_exact {A : Type} (l k : list A) : firstn (List.length l) (l ++ k) = l.
Proof. induction l as [|x l IH]; simpl; [destruct k; reflexivity | congruence]. Qed.

Lemma skipn_exact {A : Type} (l k : list A) : skipn (List.length l) (l ++ k) = k.
Proof. induction l as [|x l IH]; simpl; [reflexivity | exact IH]. Qed.

(** C3 (secondary sort), as the code has it.  The secondary key is the
    lower-cased value of the last header whose key is "server" up to
    case, the empty string if there is none.  When some kept record has
    a title, the sorted list is a permutation of the kept one made of the
    untitled records, in ascending order of that key, followed by the
    titled ones; so an untitled record with a smaller key comes before
    every untitled record with a larger one. *)
Theorem untitled_prefix_by_last_server (E : Env) (kept : list HTTResponse) :
  SortSliceContract sort_Slice ->
  ToLowerLaws ToLower ->
  GoInt.len kept <= GoInt.max_int ->
  (exists r, In r kept /\ PageTitle r <> "") ->
  (forall r, server_key r =
             match rev (filter is_server (Headers r)) with
             | [] => ""
             | h :: _ => ToLower (Value h)
             end) /\
  let out := sorter kept in
  Permutation kept out /\
  (exists n,
     Forall (fun r => PageTitle r = "") (firstn n out) /\
     Forall (fun r => PageTitle r <> "") (skipn n out) /\
     StronglySorted
       (fun a b => String.ltb (server_key b) (server_key a) = false)
       (firstn n out)) /\
  (forall i j a b,
     nth_error out i = Some a -> nth_error out j = Some b ->
     PageTitle a = "" -> PageTitle b = "" ->
     String.ltb (server_key a) (server_key b) = true -> (i < j)%nat).
Proof.
  intros Hc Hl Hmax (r0 & Hin0 & Ht0).
  split; [intros r; apply server_of_last|].
  intros out.
  pose proof (title_sorted_split Hc Hl kept Hmax) as Hsplit. cbv zeta in Hsplit.
  destruct (Hc title_less kept title_less_sw) as [Hperm1 _].
  unfold out, sorter.
  set (l1 := sort_Slice title_less kept) in *.
  set (n := Z.to_nat (lastSortIndex l1)) in *.
  destruct Hsplit as [[Hall _] | (Hpre & Hpost & _)].
  { exfalso. rewrite Forall_forall in Hall.
    apply untitled_false in Ht0. rewrite Hall in Ht0; [discriminate|].
    eapply Permutation_in; eassumption. }
  destruct (Hc server_less (firstn n l1) server_less_sw) as [Hperm2 Hsorted2].
  set (pre := sort_Slice server_less (firstn n l1)) in *.
  assert (Hpre' : Forall (fun r => untitled r = true) pre)
    by (eapply Permutation_Forall; eassumption).
  split; [|split].
  - rewrite Hperm1. rewrite <- (firstn_skipn n l1) at 1.
    apply Permutation_app_tail. exact Hperm2.
  - exists (List.length pre). rewrite firstn_exact, skipn_exact.
    split; [|split].
    + eapply Forall_impl; [|exact Hpre']. intros r. apply untitled_true.
    + eapply Forall_impl; [|exact Hpost]. intros r. apply untitled_false.
    + exact Hsorted2.
  - intros i j a b Hi Hj Ha Hb Hlt.
    assert (Hin : forall k x, nth_error (pre ++ skipn n l1) k = Some x ->
                              PageTitle x = "" -> (k < List.length pre)%nat).
    { intros k x Hk Hx. destruct (Nat.lt_ge_cases k (List.length pre)) as [|Hge];
        [assumption|]. exfalso.
      rewrite nth_error_app2 in Hk by exact Hge. apply nth_error_In in Hk.
      rewrite Forall_forall in Hpost. apply Hpost in Hk.
      apply untitled_true in Hx. congruence. }
    pose proof (Hin i a Hi Ha) as Hi'. pose proof (Hin j b Hj Hb) as Hj'.
    rewrite nth_error_app1 in Hi, Hj by assumption.
    destruct (Nat.lt_trichotomy i j) as [Hij | [Heq | Hgt]]; [exact Hij | |];
      exfalso.
    + subst j. rewrite Hi in Hj. inversion Hj; subst.
      rewrite ltb_irrefl in Hlt. discriminate.
    + pose proof (sorted_nth_error _ pre Hsorted2 j i b a Hgt Hj Hi) as Hba.
      unfold server_less in Hba. unfold server_key in Hlt. congruence.
Qed.

Lemma untitled_prefix_by_last_server_witness :
  SortSliceContract (@sort_Slice Concrete.env_insertion) /\
  ToLowerLaws (@ToLower Concrete.env_insertion) /\
  GoInt.len [Concrete.rec_nginx; Concrete.rec_apache; Concrete.rec_titled]
    <= GoInt.max_int /\
  (exists r, In r [Concrete.rec_nginx; Concrete.rec_apache; Concrete.rec_titled] /\
             PageTitle r <> "") /\
  (forall i j,
     nth_error (sorter (E := Concrete.env_insertion)
                  [Concrete.rec_nginx; Concrete.rec_apache; Concrete.rec_titled]) i =
       Some Concrete.rec_apache ->
     nth_error (sorter (E := Concrete.env_insertion)
                  [Concrete.rec_nginx; Concrete.rec_apache; Concrete.rec_titled]) j =
       Some Concrete.rec_nginx ->
     (i < j)%nat).
Proof.
  assert (Hc : SortSliceContract (@sort_Slice Concrete.env_insertion))
    by exact insertionSort_contract.
  assert (Hl : ToLowerLaws (@ToLower Concrete.env_insertion))
    by exact ascii_ToLower_laws.
  assert (Hmax : GoInt.len [Concrete.rec_nginx; Concrete.rec_apache;
                            Concrete.rec_titled] <= GoInt.max_int)
    by (vm_compute; discriminate).
  assert (Hex : exists r,
             In r [Concrete.rec_nginx; Concrete.rec_apache; Concrete.rec_titled] /\
             PageTitle r <> "").
  { exists Concrete.rec_titled. split; [simpl; auto | discriminate]. }
  destruct (untitled_prefix_by_last_server Concrete.env_insertion _ Hc Hl Hmax Hex)
    as (_ & _ & _ & Hbefore).
  split; [exact Hc | split; [exact Hl | split; [exact Hmax | split; [exact Hex|]]]].
  intros i j Hi Hj.
  exact (Hbefore i j Concrete.rec_apache Concrete.rec_nginx Hi Hj
                 eq_refl eq_refl eq_refl).
Defined.

(** C3 as the spec states it fails twice.  With the key taken from the
    first "server" header, [rec_mid] (key "mid") would have to come
    before [rec_two_servers] (first value "zeta", last value "alpha"),
    and the code puts it after.  And two untitled records alone, "nginx"
    stored before "apache", stay in that order: no record is titled, so
    the second sort gets the empty slice. *)
Lemma server_sort_counterexample :
  (sorter (E := Concrete.env_shell)
     [Concrete.rec_mid; Concrete.rec_two_servers; Concrete.rec_titled] =
     [Concrete.rec_two_servers; Concrete.rec_mid; Concrete.rec_titled] /\
   String.ltb (spec_server_key (E := Concrete.env_shell) Concrete.rec_mid)
              (spec_server_key (E := Concrete.env_shell) Concrete.rec_two_servers)
     = true) /\
  (sorter (E := Concrete.env_shell) [Concrete.rec_nginx; Concrete.rec_apache] =
     [Concrete.rec_nginx; Concrete.rec_apache] /\
   ~ precedes (sorter (E := Concrete.env_shell)
                 [Concrete.rec_nginx; Concrete.rec_apache])
              Concrete.rec_apache Concrete.rec_nginx).
Proof.
  split; [split; reflexivity|].
  split; [reflexivity|].
  intros (i & j & Hij & Hi & Hj).
  change (sorter (E := Concrete.env_shell) [Concrete.rec_nginx; Concrete.rec_apache])
    with [Concrete.rec_nginx; Concrete.rec_apache] in Hi, Hj.
  assert (Hnil : forall k x, nth_error (@nil HTTResponse) k <> Some x)
    by (intros [|k] x; discriminate).
  destruct i as [|[|i]]; simpl in Hi; try (apply Hnil in Hi; contradiction);
    destruct j as [|[|j]]; simpl in Hj; try (apply Hnil in Hj; contradiction);
    try lia; discriminate.
Qed.

Section StabilityFacts.

Context {E : Env}.

Hypothesis sort_contract : SortSliceContract sort_Slice.
Hypothesis lower_laws : ToLowerLaws ToLower.

Lemma title_equiv (x y : HTTResponse) :
  equiv_under title_less x y =
  String.eqb (ToLower (PageTitle x)) (ToLower (PageTitle y)).
Proof. exact (key_equiv_under (fun r => ToLower (PageTitle r)) x y). Qed.

Lemma server_equiv (x y : HTTResponse) :
  equiv_under server_less x y = String.eqb (server_key x) (server_key y).
Proof. exact (key_equiv_under server_key x y). Qed.

Lemma same_keys_filter (x : HTTResponse) (l : list HTTResponse) :
  filter (same_keys x) l =
  filter (fun y => negb (untitled x) || String.eqb (server_key x) (server_key y))
         (filter (equiv_under title_less x) l).
Proof.
  rewrite (filter_ext _ _ (title_equiv x)).
  exact (filter_andb
           (fun y => String.eqb (ToLower (PageTitle x)) (ToLower (PageTitle y)))
           _ l).
Qed.

(** On records without a title, having the keys of [x] means: [x] has
    no title either and the server keys agree. *)
Lemma same_keys_untitled (x y : HTTResponse) :
  untitled y = true ->
  same_keys x y = untitled x && equiv_under server_less x y.
Proof.
  intros Hy. unfold same_keys. rewrite server_equiv.
  pose proof (lower_untitled lower_laws x) as Hx.
  apply untitled_true in Hy. rewrite Hy.
  destruct lower_laws as [H0 _]. rewrite H0.
  destruct (untitled x) eqn:Hux.
  - apply String.eqb_eq in Hx. rewrite Hx. reflexivity.
  - rewrite Hx. reflexivity.
Qed.

(** The second sort, where its call is stable, does not disturb any
    class of equal keys. *)
Lemma second_sort_stable (x : HTTResponse) (pre : list HTTResponse) :
  StableCall sort_Slice server_less pre ->
  Forall (fun r => untitled r = true) pre ->
  filter (same_keys x) (sort_Slice server_less pre) = filter (same_keys x) pre.
Proof.
  intros Hcall Hpre.
  destruct (sort_contract server_less pre server_less_sw) as [Hperm _].
  assert (Hpre' : Forall (fun r => untitled r = true) (sort_Slice server_less pre))
    by (eapply Permutation_Forall; eassumption).
  rewrite Forall_forall in Hpre, Hpre'.
  rewrite (filter_ext_in (same_keys x)
             (fun y => untitled x && equiv_under server_less x y)
             (sort_Slice server_less pre))
    by (intros y Hy; apply same_keys_untitled, Hpre', Hy).
  rewrite (filter_ext_in (same_keys x)
             (fun y => untitled x && equiv_under server_less x y) pre)
    by (intros y Hy; apply same_keys_untitled, Hpre, Hy).
  destruct (untitled x); simpl.
  - apply Hcall.
  - rewrite !filter_all_false. reflexivity.
Qed.

End StabilityFacts.

Section TitleOrderFacts.

Context {E : Env}.

Hypothesis sort_contract : SortSliceContract sort_Slice.
Hypothesis lower_laws : ToLowerLaws ToLower.

(** Untitled records may stand in front of any title-sorted list. *)
Lemma untitled_in_front (pre post : list HTTResponse) :
  Forall (fun r => untitled r = true) pre ->
  StronglySorted (fun a b => title_less b a = false) post ->
  StronglySorted (fun a b => title_less b a = false) (pre ++ post).
Proof.
  induction 1 as [|a pre Ha _ IH]; intros Hpost; simpl; [exact Hpost|].
  constructor; [apply IH; exact Hpost|].
  apply Forall_forall. intros b _. unfold title_less.
  rewrite <- (lower_untitled lower_laws) in Ha. apply String.eqb_eq in Ha.
  rewrite Ha. apply ltb_empty_r.
Qed.

(** After both sorts the list is still in ascending order of the
    lower-cased titles. *)
Lemma sorter_title_sorted (kept : list HTTResponse) :
  GoInt.len kept <= GoInt.max_int ->
  StronglySorted (fun a b => title_less b a = false) (sorter kept).
Proof.
  intros Hmax.
  pose proof (title_sorted_split sort_contract lower_laws kept Hmax) as Hsplit.
  cbv zeta in Hsplit.
  destruct (sort_contract title_less kept title_less_sw) as [_ Hsorted].
  unfold sorter.
  set (l1 := sort_Slice title_less kept) in *.
  set (n := Z.to_nat (lastSortIndex l1)) in *.
  apply untitled_in_front; [|apply sorted_skipn; exact Hsorted].
  destruct (sort_contract server_less (firstn n l1) server_less_sw)
    as [Hperm _].
  eapply Permutation_Forall; [exact Hperm|].
  destruct Hsplit as [[_ Hn] | [Hpre _]]; [|exact Hpre].
  rewrite Hn. constructor.
Qed.

End TitleOrderFacts.

(** On a slice of at most 6 elements the Shell pass has nothing to
    swap, and the sort is the insertion sort alone. *)
Lemma shell_pass_short {A : Type} (less : A -> A -> bool) (l : list A) :
  (List.length l <= 6)%nat -> Concrete.shell_pass less l = l.
Proof.
  intros Hlen. unfold Concrete.shell_pass.
  rewrite (skipn_all2 (n := 6%nat)) by exact Hlen.
  rewrite (skipn_all2 (n := 12%nat)) by lia.
  rewrite (firstn_all2 (n := 6%nat)) by exact Hlen.
  change (firstn 6 []) with (@nil A).
  assert (Hswap : Concrete.gap_swap less l [] = (l, []))
    by (destruct l; reflexivity).
  rewrite Hswap. rewrite !app_nil_r. reflexivity.
Qed.

(** So a call of that sort on at most 6 elements is stable. *)
Lemma shell_insertion_sort_stable_short
    (less : HTTResponse -> HTTResponse -> bool) (l : list HTTResponse) :
  StrictWeak less -> (List.length l <= 6)%nat ->
  StableCall (fun less => Concrete.shell_insertion_sort less) less l.
Proof.
  intros Hsw Hlen x. unfold Concrete.shell_insertion_sort.
  rewrite shell_pass_short by exact Hlen.
  apply insertionSort_stable. exact Hsw.
Qed.

(** C4 (stability), as the code has it.  [sort.Slice] promises an
    ordered permutation only, and that is what the two-level sort gives:
    a permutation of the kept list in ascending order of the lower-cased
    titles.  Where the two calls of [sort.Slice] that the run makes, the
    one on the kept list and the one on the untitled prefix, keep equal
    elements in their order, so does the two-level sort: the records
    that have the comparison keys of any record [x] at both levels come
    out in the order they went in. *)
Theorem two_level_sort_stable (E : Env) (kept : list HTTResponse) :
  SortSliceContract sort_Slice ->
  ToLowerLaws ToLower ->
  GoInt.len kept <= GoInt.max_int ->
  Permutation kept (sorter kept) /\
  StronglySorted
    (fun a b => String.ltb (ToLower (PageTitle b)) (ToLower (PageTitle a)) = false)
    (sorter kept) /\
  (StableCall sort_Slice title_less kept ->
   StableCall sort_Slice server_less
     (firstn (Z.to_nat (lastSortIndex (sort_Slice title_less kept)))
             (sort_Slice title_less kept)) ->
   forall x, filter (same_keys x) (sorter kept) = filter (same_keys x) kept).
Proof.
  intros Hc Hl Hmax.
  split; [apply sorter_perm; exact Hc|].
  split; [exact (sorter_title_sorted Hc Hl kept Hmax)|].
  intros Hst1 Hst2 x.
  pose proof (title_sorted_split Hc Hl kept Hmax) as Hsplit. cbv zeta in Hsplit.
  unfold sorter.
  set (l1 := sort_Slice title_less kept) in *.
  set (n := Z.to_nat (lastSortIndex l1)) in *.
  assert (Hpre : Forall (fun r => untitled r = true) (firstn n l1)).
  { destruct Hsplit as [[_ Hn] | [Hpre _]]; [|exact Hpre].
    rewrite Hn. constructor. }
  transitivity (filter (same_keys x) l1).
  - rewrite <- (firstn_skipn n l1) at 3.
    rewrite !filter_app, (second_sort_stable Hc Hl x _ Hst2 Hpre). reflexivity.
  - rewrite !same_keys_filter. unfold l1.
    rewrite (Hst1 x). reflexivity.
Qed.

Lemma two_level_sort_stable_witness :
  SortSliceContract (@sort_Slice Concrete.env_shell) /\
  ToLowerLaws (@ToLower Concrete.env_shell) /\
  GoInt.len Concrete.kept_6 <= GoInt.max_int /\
  StableCall (@sort_Slice Concrete.env_shell)
             (@title_less Concrete.env_shell) Concrete.kept_6 /\
  StableCall (@sort_Slice Concrete.env_shell)
             (@server_less Concrete.env_shell)
             (firstn (Z.to_nat (lastSortIndex
                                  (@sort_Slice Concrete.env_shell
                                     (@title_less Concrete.env_shell)
                                     Concrete.kept_6)))
                     (@sort_Slice Concrete.env_shell
                        (@title_less Concrete.env_shell) Concrete.kept_6)) /\
  sorter (E := Concrete.env_shell) Concrete.kept_6 =
    [Concrete.rec_apache; Concrete.rec_mid; Concrete.rec_nginx;
     Concrete.rec_b1; Concrete.rec_b2; Concrete.rec_titled] /\
  filter (same_keys (E := Concrete.env_shell) Concrete.rec_b1)
         (sorter (E := Concrete.env_shell) Concrete.kept_6) =
    [Concrete.rec_b1; Concrete.rec_b2].
Proof.
  assert (Hc : SortSliceContract (@sort_Slice Concrete.env_shell))
    by exact shell_insertion_sort_contract.
  assert (Hl : ToLowerLaws (@ToLower Concrete.env_shell))
    by exact ascii_ToLower_laws.
  assert (Hmax : GoInt.len Concrete.kept_6 <= GoInt.max_int)
    by (vm_compute; discriminate).
  assert (Hst1 : StableCall (@sort_Slice Concrete.env_shell)
                            (@title_less Concrete.env_shell) Concrete.kept_6).
  { apply shell_insertion_sort_stable_short; [apply title_less_sw|].
    apply Nat.leb_le. reflexivity. }
  assert (Hst2 : StableCall (@sort_Slice Concrete.env_shell)
                   (@server_less Concrete.env_shell)
                   (firstn (Z.to_nat (lastSortIndex
                                        (@sort_Slice Concrete.env_shell
                                           (@title_less Concrete.env_shell)
                                           Concrete.kept_6)))
                           (@sort_Slice Concrete.env_shell
                              (@title_less Concrete.env_shell) Concrete.kept_6))).
  { apply shell_insertion_sort_stable_short; [apply server_less_sw|].
    apply Nat.leb_le. vm_compute. reflexivity. }
  split; [exact Hc | split; [exact Hl | split; [exact Hmax |
    split; [exact Hst1 | split; [exact Hst2 | split; [vm_compute; reflexivity|]]]]]].
  destruct (two_level_sort_stable Concrete.env_shell Concrete.kept_6
              Hc Hl Hmax) as (_ & _ & Hstable).
  rewrite (Hstable Hst1 Hst2 Concrete.rec_b1).
  reflexivity.
Defined.

(** C4 as the spec states it fails.  On these seven records [sort.Slice]
    as shipped with Go 1.8 to 1.18 first swaps the last record (title
    "a") with the first (title "b"), then sorts by insertion: the two
    records titled "b" come out in the opposite order.  The sort used is
    within the contract of [sort.Slice]. *)
Lemma stability_counterexample :
  SortSliceContract (@sort_Slice Concrete.env_shell) /\
  sorter (E := Concrete.env_shell) Concrete.kept_7 =
    [Concrete.rec_a; Concrete.rec_b2; Concrete.rec_b1;
     Concrete.rec_c "shots/3.png"; Concrete.rec_c "shots/4.png";
     Concrete.rec_c "shots/5.png"; Concrete.rec_c "shots/6.png"] /\
  filter (same_keys (E := Concrete.env_shell) Concrete.rec_b1) Concrete.kept_7 =
    [Concrete.rec_b1; Concrete.rec_b2] /\
  filter (same_keys (E := Concrete.env_shell) Concrete.rec_b1)
         (sorter (E := Concrete.env_shell) Concrete.kept_7) =
    [Concrete.rec_b2; Concrete.rec_b1].
Proof.
  split; [exact shell_insertion_sort_contract|].
  repeat split; vm_compute; reflexivity.
Qed.

(* ================================================================= *)
(** ** The whole run *)

Section RunFacts.

Context {E : Env}.

Hypothesis sort_contract : SortSliceContract sort_Slice.

Variables (db : Db) (ds : list HTTResponse) (inc : bool).
Hypothesis db_decodes : decodes (db_pairs db) ds.
Hypothesis db_small : GoInt.len (db_pairs db) <= 2 ^ 62.
Hypothesis db_viewed : db_err db = None.

Lemma load_kept :
  exists lg,
    load inc (db_pairs db) =
      inr (mkLoadState (kept_of inc ds) (ignored_of inc ds) lg) /\
    filter is_failure_call lg = [].
Proof.
  apply load_decoded; [exact db_decodes|].
  assert (H62 : 2 ^ 62 = 4611686018427387904) by reflexivity. int_range.
Qed.

Lemma kept_len_le : GoInt.len (kept_of inc ds) <= GoInt.len (db_pairs db).
Proof.
  unfold kept_of, GoInt.len.
  pose proof (filter_length_le (fun d => inc || is_success d)
                               (map placeholder_or_keep ds)) as Hle.
  rewrite length_map in Hle. apply Forall2_length in db_decodes. lia.
Qed.

(** A run without kept records: one error-level call, nothing else. *)
Lemma Run_empty (fuel : nat) (pageSize : Z) :
  kept_of inc ds = [] ->
  exists lg,
    filter is_failure_call lg = [] /\
    Run fuel db pageSize inc =
      Some (mkOutcome (lg ++ [no_entries_call]) [] ExitReturn).
Proof.
  intros Hkept. destruct load_kept as (lg & Hload & Hq).
  exists lg. split; [exact Hq|].
  unfold Run. rewrite Hload, db_viewed. simpl. rewrite Hkept.
  assert (Hnil : sorter [] = [])
  by (apply Permutation_nil, (sorter_perm sort_contract)).
  rewrite Hnil. reflexivity.
Qed.

(** A run with kept records, a template that parses and a positive
    page size: every page of the spec is rendered, in ascending order,
    from the projected sorted list, and the run returns. *)
Lemma Run_report (fuel : nat) (pageSize : Z) :
  template_Parse = None ->
  0 < pageSize <= GoInt.max_int ->
  kept_of inc ds <> [] ->
  (List.length (db_pairs db) < fuel)%nat ->
  let pageCount := ceil_div (GoInt.len (kept_of inc ds)) pageSize in
  let pages := page_numbers 0 (Z.to_nat pageCount) in
  exists lg,
    filter is_failure_call lg = [] /\
    Run fuel db pageSize inc =
      Some (mkOutcome
              (lg ++ [report_generated_call])
              (map (fun p =>
                      render_page
                        (spec_page (map project (sorter (kept_of inc ds)))
                                   pageSize pageCount (index_string "" pages)
                                   (ignored_of inc ds) p))
                   pages)
              ExitReturn).
Proof.
  intros Hparse HP Hne Hfuel pageCount pages.
  destruct load_kept as (lg & Hload & Hq).
  exists lg. split; [exact Hq|].
  pose proof kept_len_le as Hle.
  pose proof (len_nonneg (kept_of inc ds)) as H0.
  assert (Hpos : 0 < GoInt.len (kept_of inc ds)).
  { destruct (kept_of inc ds); [congruence|]. rewrite len_cons.
    pose proof (len_nonneg l). lia. }
  assert (Hn : 0 <= GoInt.len (kept_of inc ds) <= 2 ^ 62) by lia.
  assert (Hc0 : 0 <= pageCount) by (apply ceil_div_nonneg; lia).
  assert (HcN : pageCount <= GoInt.len (kept_of inc ds))
    by (apply ceil_div_le_self; lia).
  assert (HfuelZ : pageCount - 0 < Z.of_nat fuel)
    by (unfold GoInt.len in *; lia).
  unfold Run. rewrite Hload, db_viewed. simpl.
  rewrite (sorter_len sort_contract).
  replace (GoInt.len (kept_of inc ds) <=? 0) with false
    by (symmetry; apply Z.leb_gt; exact Hpos).
  rewrite Hparse.
  rewrite (index_loop_from _ pageSize HP Hn fuel 0 0 "") by (fold pageCount; lia).
  rewrite (render_loop_from (GoInt.len (kept_of inc ds)) pageSize HP Hn
             (map project (sorter (kept_of inc ds))))
    by (try (unfold GoInt.len; rewrite length_map;
           apply (sorter_len sort_contract));
        fold pageCount; lia).
  fold pageCount. rewrite Z.sub_0_r. reflexivity.
Qed.

End RunFacts.

(** C7 (no kept record), as the code has it.  When every stored value
    decodes, [View] reports no error and the filter keeps nothing, the
    run returns at once, whatever the fuel: no page is rendered, no file
    is written, and the one call at error level carries the count of
    kept records, which is 0. *)
Theorem empty_report (E : Env) (fuel : nat) (db : Db) (ds : list HTTResponse)
    (pageSize : Z) (inc : bool) :
  SortSliceContract sort_Slice ->
  decodes (db_pairs db) ds ->
  GoInt.len (db_pairs db) <= 2 ^ 62 ->
  db_err db = None ->
  kept_of inc ds = [] ->
  exists o,
    Run fuel db pageSize inc = Some o /\
    out_exit o = ExitReturn /\
    out_pages o = [] /\
    files_written o = [] /\
    filter is_failure_call (out_log o) = [no_entries_call].
Proof.
  intros Hc Hd Hsmall Herr Hkept.
  destruct (Run_empty Hc db ds inc Hd Hsmall Herr fuel pageSize Hkept)
    as (lg & Hq & Hrun).
  eexists. split; [exact Hrun|]. simpl. repeat split.
  rewrite filter_app, Hq. reflexivity.
Qed.

Lemma empty_report_witness :
  SortSliceContract (@sort_Slice Concrete.env_404) /\
  decodes (E := Concrete.env_404) (db_pairs Concrete.db_404)
          (map snd Concrete.table_404) /\
  GoInt.len (db_pairs Concrete.db_404) <= 2 ^ 62 /\
  db_err Concrete.db_404 = None /\
  kept_of (E := Concrete.env_404) false (map snd Concrete.table_404) = [] /\
  exists o,
    Run (E := Concrete.env_404) 0 Concrete.db_404 40 false = Some o /\
    out_exit o = ExitReturn /\
    out_pages o = [] /\
    files_written o = [] /\
    filter is_failure_call (out_log o) = [no_entries_call].
Proof.
  assert (Hc : SortSliceContract (@sort_Slice Concrete.env_404))
    by exact insertionSort_contract.
  assert (Hd : decodes (E := Concrete.env_404) (db_pairs Concrete.db_404)
                       (map snd Concrete.table_404))
    by (repeat constructor).
  assert (Hsmall : GoInt.len (db_pairs Concrete.db_404) <= 2 ^ 62)
    by (vm_compute; discriminate).
  assert (Herr : db_err Concrete.db_404 = None) by reflexivity.
  assert (Hkept : kept_of (E := Concrete.env_404) false
                          (map snd Concrete.table_404) = [])
    by reflexivity.
  split; [exact Hc | split; [exact Hd | split; [exact Hsmall |
    split; [exact Herr | split; [exact Hkept|]]]]].
  exact (empty_report Concrete.env_404 0 Concrete.db_404 _ 40 false
                      Hc Hd Hsmall Herr Hkept).
Defined.

(** C7 as the spec states it fails: three records that all answered 404
    are ignored, the counter of ignored records is 3, and the error
    report carries the count 0; no log call of the run carries 3. *)
Lemma empty_report_counts_kept :
  exists st o,
    load (E := Concrete.env_404) false (db_pairs Concrete.db_404) = inr st /\
    screenshotEntries st = [] /\
    errorsIgnored st = 3 /\
    Run (E := Concrete.env_404) 10 Concrete.db_404 40 false = Some o /\
    files_written o = [] /\
    filter (has_level ErrorLevel) (out_log o) =
      [mkLog ErrorLevel (Some ("count", FInt 0))
             "No screenshot entries exist to create a report"] /\
    filter (carries_int 3) (out_log o) = [].
Proof.
  eexists. eexists.
  split; [vm_compute; reflexivity|].
  split; [reflexivity|]. split; [reflexivity|].
  split; [vm_compute; reflexivity|].
  repeat split.
Qed.

(** C8 (display projection).  The projection keeps [URL], [FinalURL],
    [ResponseCode] and [PageTitle]; it sets [ScreenshotFile] to its base
    name unless it is the placeholder, and [Headers] to the headers whose
    key is "server" up to case, in their order.  In a run that renders,
    it is applied to the list the filter kept and the sorter ordered:
    page [p] shows the projection of the slice [p] of that list, and all
    pages together the projection of the whole list; filter and sorter
    work on the records as loaded. *)
Theorem display_projection (E : Env) (fuel : nat) (db : Db)
    (ds : list HTTResponse) (pageSize : Z) (inc : bool) :
  SortSliceContract sort_Slice ->
  decodes (db_pairs db) ds ->
  GoInt.len (db_pairs db) <= 2 ^ 62 ->
  db_err db = None ->
  template_Parse = None ->
  0 < pageSize <= GoInt.max_int ->
  kept_of inc ds <> [] ->
  (List.length (db_pairs db) < fuel)%nat ->
  (forall r,
     URL (project r) = URL r /\
     FinalURL (project r) = FinalURL r /\
     ResponseCode (project r) = ResponseCode r /\
     PageTitle (project r) = PageTitle r /\
     ScreenshotFile (project r) =
       (if String.eqb (ScreenshotFile r) PlaceHolderImage
        then ScreenshotFile r else Base (ScreenshotFile r)) /\
     Headers (project r) =
       filter (fun h => String.eqb (ToLower (Key h)) "server") (Headers r)) /\
  let sorted := sorter (kept_of inc ds) in
  exists o,
    Run fuel db pageSize inc = Some o /\
    out_exit o = ExitReturn /\
    List.concat (shots_of (out_pages o)) = map project sorted /\
    (forall p, 0 <= p < ceil_div (GoInt.len (kept_of inc ds)) pageSize ->
       exists r, nth_error (out_pages o) (Z.to_nat p) = Some r /\
                 ScreenShots (run_data r) =
                   map project (spec_slice sorted pageSize p)).
Proof.
  intros Hc Hd Hsmall Herr Hparse HP Hne Hfuel.
  split.
  { intros r. unfold project.
    destruct (String.eqb (ScreenshotFile r) PlaceHolderImage);
      simpl; repeat split. }
  intros sorted.
  destruct (Run_report Hc db ds inc Hd Hsmall Herr fuel pageSize
                       Hparse HP Hne Hfuel) as (lg & Hq & Hrun).
  cbv zeta in Hrun. fold sorted in Hrun.
  set (n := GoInt.len (kept_of inc ds)) in *.
  set (pageCount := ceil_div n pageSize) in *.
  assert (Hlen : GoInt.len (map project sorted) = n).
  { unfold GoInt.len. rewrite length_map. apply (sorter_len Hc). }
  assert (Hn : 0 <= n <= 2 ^ 62).
  { pose proof (kept_len_le db ds inc Hd). pose proof (len_nonneg (kept_of inc ds)).
    unfold n. lia. }
  assert (Hc0 : 0 <= pageCount) by (apply ceil_div_nonneg; lia).
  assert (Hshots : forall p,
             ScreenShots (run_data (render_page
               (spec_page (map project sorted) pageSize pageCount
                  (index_string "" (page_numbers 0 (Z.to_nat pageCount)))
                  (ignored_of inc ds) p))) =
             spec_slice (map project sorted) pageSize p).
  { intros p. unfold render_page. destruct (template_Execute _). reflexivity. }
  eexists. split; [exact Hrun|]. simpl. split; [reflexivity|]. split.
  - unfold shots_of. rewrite map_map.
    pose proof (slices_concat n pageSize HP Hn (map project sorted) Hlen
                              (Z.to_nat pageCount) 0 (Z.le_refl 0)) as Hcat.
    simpl in Hcat. etransitivity; [|apply Hcat; unfold pageCount; lia].
    f_equal. apply map_ext. exact Hshots.
  - intros p Hp. eexists. split.
    + rewrite nth_error_map, nth_error_page_numbers by lia. reflexivity.
    + simpl. rewrite Hshots, Z2Nat.id by lia.
      unfold spec_slice. rewrite skipn_map, firstn_map.
      unfold GoInt.len. rewrite length_map. reflexivity.
Qed.

Lemma decodes_85 (E : Env) :
  json_Unmarshal = Concrete.table_Unmarshal Concrete.table_85 ->
  decodes (db_pairs Concrete.db_85) (map snd Concrete.table_85).
Proof.
  intros Hj. unfold decodes. rewrite Hj. vm_compute. repeat constructor.
Qed.

Lemma display_projection_witness :
  SortSliceContract (@sort_Slice Concrete.env_85) /\
  decodes (E := Concrete.env_85) (db_pairs Concrete.db_85)
          (map snd Concrete.table_85) /\
  GoInt.len (db_pairs Concrete.db_85) <= 2 ^ 62 /\
  db_err Concrete.db_85 = None /\
  @template_Parse Concrete.env_85 = None /\
  0 < 40 <= GoInt.max_int /\
  kept_of (E := Concrete.env_85) false (map snd Concrete.table_85) <> [] /\
  (List.length (db_pairs Concrete.db_85) < 100)%nat /\
  exists o,
    Run (E := Concrete.env_85) 100 Concrete.db_85 40 false = Some o /\
    out_exit o = ExitReturn /\
    List.concat (shots_of (out_pages o)) =
      map (project (E := Concrete.env_85))
          (sorter (E := Concrete.env_85)
             (kept_of (E := Concrete.env_85) false (map snd Concrete.table_85))).
Proof.
  assert (Hc : SortSliceContract (@sort_Slice Concrete.env_85))
    by exact insertionSort_contract.
  assert (Hd : decodes (E := Concrete.env_85) (db_pairs Concrete.db_85)
                       (map snd Concrete.table_85))
    by (apply decodes_85; reflexivity).
  assert (Hsmall : GoInt.len (db_pairs Concrete.db_85) <= 2 ^ 62)
    by (vm_compute; discriminate).
  assert (Herr : db_err Concrete.db_85 = None) by reflexivity.
  assert (Hparse : @template_Parse Concrete.env_85 = None) by reflexivity.
  assert (HP : 0 < 40 <= GoInt.max_int) by (rewrite max_int_value; lia).
  assert (Hne : kept_of (E := Concrete.env_85) false
                        (map snd Concrete.table_85) <> [])
    by (vm_compute; discriminate).
  assert (Hfuel : (List.length (db_pairs Concrete.db_85) < 100)%nat)
    by (apply Nat.ltb_lt; vm_compute; reflexivity).
  destruct (display_projection Concrete.env_85 100 Concrete.db_85 _ 40 false
              Hc Hd Hsmall Herr Hparse HP Hne Hfuel)
    as (_ & o & Hrun & Hexit & Hcat & _).
  split; [exact Hc | split; [exact Hd | split; [exact Hsmall |
    split; [exact Herr | split; [exact Hparse | split; [exact HP |
    split; [exact Hne | split; [exact Hfuel|]]]]]]]].
  exists o. split; [exact Hrun | split; [exact Hexit | exact Hcat]].
Defined.




(* ================================================================= *)
(** ** Further properties of the run: the fatal paths *)

Section FatalFacts.

Context {E : Env}.

Lemma Ascend_app (inc : bool) (p1 p2 : list (string * string)) :
  forall st,
    Ascend inc (p1 ++ p2) st =
    match Ascend inc p1 st with
    | inl fatal => inl fatal
    | inr st' => Ascend inc p2 st'
    end.
Proof.
  induction p1 as [|kv p1 IH]; intros st; simpl; [reflexivity|].
  destruct (ascend_fn inc st kv); [reflexivity | apply IH].
Qed.

(** Values that decode are loaded without a failure call, whatever the
    size of the store. *)
Lemma Ascend_quiet (inc : bool) (pairs : list (string * string))
    (ds : list HTTResponse) :
  decodes pairs ds ->
  forall st, exists st',
    Ascend inc pairs st = inr st' /\
    filter is_failure_call (load_log st') = filter is_failure_call (load_log st).
Proof.
  induction 1 as [|kv d pairs ds Hd _ IH]; intros st; simpl.
  - exists st. split; reflexivity.
  - destruct (ascend_fn_decoded inc st kv d Hd) as (lg & Hstep & Hq).
    rewrite Hstep.
    destruct (inc || is_success (placeholder_or_keep d));
      match goal with
      | |- context [Ascend inc pairs ?s] =>
          destruct (IH s) as (st' & Hrun & Hq'); exists st';
          split; [exact Hrun | simpl in Hq'; congruence]
      end.
Qed.

(** A value that does not decode ends the load in [log.Fatal]. *)
Lemma ascend_fn_undecoded (inc : bool) (st : LoadState) (kv : string * string)
    (err : string) :
  json_Unmarshal (snd kv) = inl err ->
  exists lg,
    ascend_fn inc st kv = inl (lg ++ [mkLog FatalLevel None err]) /\
    filter is_failure_call lg = filter is_failure_call (load_log st).
Proof.
  intros Hbad. unfold ascend_fn. rewrite Hbad.
  eexists. split; [reflexivity|].
  rewrite filter_app. simpl. rewrite app_nil_r. reflexivity.
Qed.

End FatalFacts.

(** X1 (decode failure).  When a stored value does not decode and all
    the values before it do, the run ends in [log.Fatal] with the decode
    error as its last and only failure call and renders nothing; the
    values after it, the error of [View], the page size and the fuel
    play no part. *)
Theorem decode_failure_aborts (E : Env) (good : list (string * string))
    (ds : list HTTResponse) (bad : string * string) (err : string)
    (inc : bool) :
  decodes good ds ->
  json_Unmarshal (snd bad) = inl err ->
  exists lg,
    filter is_failure_call lg = [] /\
    forall rest view_err fuel pageSize,
      Run fuel (mkDb (good ++ bad :: rest) view_err) pageSize inc =
        Some (mkOutcome (lg ++ [mkLog FatalLevel None err]) [] ExitFatal).
Proof.
  intros Hd Hbad.
  destruct (Ascend_quiet inc good ds Hd (mkLoadState [] 0 []))
    as (st & Hload & Hq).
  destruct (ascend_fn_undecoded inc st bad err Hbad) as (lg & Hstep & Hq').
  exists lg. split; [simpl in Hq; congruence|].
  intros rest view_err fuel pageSize. unfold Run, load. simpl db_pairs.
  rewrite Ascend_app, Hload. simpl. rewrite Hstep. reflexivity.
Qed.

Lemma decode_failure_aborts_witness :
  decodes (E := Concrete.env_mixed) [("k1", "v1")]
          [Concrete.response 200 "Welcome" "shots/a.png" [mkHeader "Server" "nginx"]] /\
  @json_Unmarshal Concrete.env_mixed "{oops" = inl "unexpected end of JSON input" /\
  exists o,
    Run (E := Concrete.env_mixed) 0 Concrete.db_broken 40 false = Some o /\
    out_exit o = ExitFatal /\
    out_pages o = [] /\
    filter is_failure_call (out_log o) =
      [mkLog FatalLevel None "unexpected end of JSON input"].
Proof.
  assert (Hd : decodes (E := Concrete.env_mixed) [("k1", "v1")]
                 [Concrete.response 200 "Welcome" "shots/a.png"
                    [mkHeader "Server" "nginx"]])
    by (repeat constructor).
  assert (Hbad : @json_Unmarshal Concrete.env_mixed (snd ("k2", "{oops")) =
                 inl "unexpected end of JSON input") by reflexivity.
  destruct (decode_failure_aborts Concrete.env_mixed _ _ ("k2", "{oops") _ false
              Hd Hbad) as (lg & Hq & Hrun).
  split; [exact Hd | split; [exact Hbad|]].
  eexists. split; [exact (Hrun [("k3", "v3"); ("k4", "v4")] None O 40)|].
  simpl. repeat split.
  rewrite filter_app, Hq. reflexivity.
Defined.

(** X2 (error of [View]).  When every stored value decodes and
    [db.Db.View] returns an error, the run ends in [log.Fatal] with that
    error, after the load and without rendering any page, also when
    records were kept. *)
Theorem view_error_fatal (E : Env) (db : Db) (ds : list HTTResponse)
    (err : string) (inc : bool) (fuel : nat) (pageSize : Z) :
  decodes (db_pairs db) ds ->
  db_err db = Some err ->
  exists lg,
    filter is_failure_call lg = [] /\
    Run fuel db pageSize inc =
      Some (mkOutcome (lg ++ [mkLog FatalLevel None err]) [] ExitFatal).
Proof.
  intros Hd Herr.
  destruct (Ascend_quiet inc (db_pairs db) ds Hd (mkLoadState [] 0 []))
    as (st & Hload & Hq).
  exists (load_log st). split; [exact Hq|].
  unfold Run, load. rewrite Hload, Herr. reflexivity.
Qed.

Lemma view_error_fatal_witness :
  decodes (E := Concrete.env_mixed) (db_pairs Concrete.db_view_failed)
          (map snd Concrete.table_mixed) /\
  db_err Concrete.db_view_failed = Some "database closed" /\
  exists o,
    Run (E := Concrete.env_mixed) 10 Concrete.db_view_failed 40 true = Some o /\
    out_exit o = ExitFatal /\
    out_pages o = [] /\
    filter is_failure_call (out_log o) = [mkLog FatalLevel None "database closed"].
Proof.
  assert (Hd : decodes (E := Concrete.env_mixed) (db_pairs Concrete.db_view_failed)
                       (map snd Concrete.table_mixed))
    by (repeat constructor).
  assert (Herr : db_err Concrete.db_view_failed = Some "database closed")
    by reflexivity.
  destruct (view_error_fatal Concrete.env_mixed _ _ _ true 10 40 Hd Herr)
    as (lg & Hq & Hrun).
  split; [exact Hd | split; [exact Herr|]].
  eexists. split; [exact Hrun|]. simpl. repeat split.
  rewrite filter_app, Hq. reflexivity.
Defined.

(** X3 (template).  When records are kept and the report template does
    not parse, the run ends in [log.Fatal] with the parse error in the
    field [err], before any page is rendered or written; the page size
    and the fuel play no part. *)
Theorem parse_failure_fatal (E : Env) (db : Db) (ds : list HTTResponse)
    (err : string) (inc : bool) (fuel : nat) (pageSize : Z) :
  SortSliceContract sort_Slice ->
  decodes (db_pairs db) ds ->
  GoInt.len (db_pairs db) <= 2 ^ 62 ->
  db_err db = None ->
  kept_of inc ds <> [] ->
  template_Parse = Some err ->
  exists lg,
    filter is_failure_call lg = [] /\
    Run fuel db pageSize inc =
      Some (mkOutcome
              (lg ++ [mkLog FatalLevel (Some ("err", FString err))
                            "Failed to parse template"])
              [] ExitFatal).
Proof.
  intros Hc Hd Hsmall Hview Hne Hparse.
  destruct (load_kept db ds inc Hd Hsmall) as (lg & Hload & Hq).
  exists lg. split; [exact Hq|].
  unfold Run. rewrite Hload, Hview. simpl.
  rewrite (sorter_len Hc).
  assert (Hpos : 0 < GoInt.len (kept_of inc ds)).
  { destruct (kept_of inc ds) as [|x l]; [congruence|]. rewrite len_cons.
    pose proof (len_nonneg l). lia. }
  replace (GoInt.len (kept_of inc ds) <=? 0) with false
    by (symmetry; apply Z.leb_gt; exact Hpos).
  rewrite Hparse. reflexivity.
Qed.

Lemma parse_failure_fatal_witness :
  SortSliceContract (@sort_Slice Concrete.env_bad_template) /\
  decodes (E := Concrete.env_bad_template) (db_pairs Concrete.db_mixed)
          (map snd Concrete.table_mixed) /\
  GoInt.len (db_pairs Concrete.db_mixed) <= 2 ^ 62 /\
  db_err Concrete.db_mixed = None /\
  kept_of (E := Concrete.env_bad_template) false (map snd Concrete.table_mixed)
    <> [] /\
  @template_Parse Concrete.env_bad_template =
    Some "template: report-page:1: unexpected EOF" /\
  exists o,
    Run (E := Concrete.env_bad_template) 0 Concrete.db_mixed 40 false = Some o /\
    out_exit o = ExitFatal /\
    out_pages o = [].
Proof.
  assert (Hc : SortSliceContract (@sort_Slice Concrete.env_bad_template))
    by exact insertionSort_contract.
  assert (Hd : decodes (E := Concrete.env_bad_template)
                 (db_pairs Concrete.db_mixed) (map snd Concrete.table_mixed))
    by (repeat constructor).
  assert (Hsmall : GoInt.len (db_pairs Concrete.db_mixed) <= 2 ^ 62)
    by (vm_compute; discriminate).
  assert (Hview : db_err Concrete.db_mixed = None) by reflexivity.
  assert (Hne : kept_of (E := Concrete.env_bad_template) false
                        (map snd Concrete.table_mixed) <> [])
    by (vm_compute; discriminate).
  assert (Hparse : @template_Parse Concrete.env_bad_template =
                   Some "template: report-page:1: unexpected EOF")
    by reflexivity.
  destruct (parse_failure_fatal Concrete.env_bad_template _ _ _ false 0 40
              Hc Hd Hsmall Hview Hne Hparse) as (lg & Hq & Hrun).
  split; [exact Hc | split; [exact Hd | split; [exact Hsmall |
    split; [exact Hview | split; [exact Hne | split; [exact Hparse|]]]]]].
  eexists. split; [exact Hrun|]. simpl. split; reflexivity.
Defined.

(* ================================================================= *)
(** ** Further properties of the run: the pages *)

Lemma render_page_data (E : Env) (td : TemplateData) :
  run_data (render_page td) = td.
Proof. unfold render_page. destruct (template_Execute td). reflexivity. Qed.

Lemma render_page_file (E : Env) (td : TemplateData) :
  run_file (render_page td) = "./page-" +s GoInt.itoa (PageNumber td) +s ".html".
Proof. unfold render_page. destruct (template_Execute td). reflexivity. Qed.

Lemma page_numbers_length (count : nat) :
  forall from, List.length (page_numbers from count) = count.
Proof. induction count as [|c IH]; intros from; simpl; [|rewrite IH]; reflexivity. Qed.

Lemma in_page_numbers (count : nat) :
  forall from p, In p (page_numbers from count) <-> from <= p < from + Z.of_nat count.
Proof.
  induction count as [|c IH]; intros from p.
  - simpl. lia.
  - change (page_numbers from (S c)) with (from :: page_numbers (from + 1) c).
    rewrite Nat2Z.inj_succ. simpl. rewrite IH. lia.
Qed.

(** What a rendering run produces, with the sizes that go with it. *)
Lemma renders_outcome (E : Env) (fuel : nat) (db : Db) (ds : list HTTResponse)
    (pageSize : Z) (inc : bool) :
  renders fuel db ds pageSize inc ->
  let n := GoInt.len (kept_of inc ds) in
  let pageCount := ceil_div n pageSize in
  let entries := map project (sorter (kept_of inc ds)) in
  let pageIndex := index_string "" (page_numbers 0 (Z.to_nat pageCount)) in
  (1 <= pageCount <= n /\ n <= 2 ^ 62 /\ GoInt.len entries = n /\
   n <= GoInt.len (db_pairs db)) /\
  exists lg,
    filter is_failure_call lg = [] /\
    Run fuel db pageSize inc =
      Some (mkOutcome
              (lg ++ [report_generated_call])
              (map (fun p => render_page
                      (spec_page entries pageSize pageCount pageIndex
                                 (ignored_of inc ds) p))
                   (page_numbers 0 (Z.to_nat pageCount)))
              ExitReturn).
Proof.
  intros (Hc & Hd & Hsmall & Hview & Hparse & HP & Hne & Hfuel)
         n pageCount entries pageIndex.
  split.
  - pose proof (kept_len_le db ds inc Hd) as Hle. fold n in Hle.
    assert (Hpos : 0 < n).
    { unfold n. destruct (kept_of inc ds) as [|x l]; [congruence|].
      rewrite len_cons. pose proof (len_nonneg l). lia. }
    assert (Hlow : 0 < pageCount) by (apply ceil_div_gt; lia).
    assert (Hup : pageCount <= n) by (apply ceil_div_le_self; lia).
    repeat split; try lia.
    unfold entries, GoInt.len. rewrite length_map. apply (sorter_len Hc).
  - exact (Run_report Hc db ds inc Hd Hsmall Hview fuel pageSize
                      Hparse HP Hne Hfuel).
Qed.

Lemma nth_error_pages {A : Type} (f : Z -> A) (pageCount p : Z) :
  0 <= p < pageCount ->
  nth_error (map f (page_numbers 0 (Z.to_nat pageCount))) (Z.to_nat p) =
  Some (f p).
Proof.
  intros Hp. rewrite nth_error_map, nth_error_page_numbers by lia.
  simpl. rewrite Z2Nat.id by lia. reflexivity.
Qed.

Lemma spec_slice_len (kept : list HTTResponse) (pageSize p : Z) :
  0 < pageSize -> 0 <= p -> p * pageSize < GoInt.len kept ->
  GoInt.len (spec_slice kept pageSize p) =
  Z.min pageSize (GoInt.len kept - p * pageSize).
Proof.
  intros HP Hp Hlt. unfold spec_slice, GoInt.len in *.
  rewrite length_firstn, length_skipn. lia.
Qed.

(** With a page size that is not positive the index loop cannot end
    before [i] wraps around. *)
Lemma index_loop_nonpositive (fuel : nat) :
  forall n pageSize i pageno pageIndex,
    pageSize <= 0 -> 0 < n -> i <= 0 ->
    GoInt.min_int <= i + Z.of_nat fuel * pageSize ->
    index_loop fuel n pageSize i pageno pageIndex = None.
Proof.
  induction fuel as [|fuel IH]; intros n pageSize i pageno pageIndex HP Hn Hi Hmin;
    [reflexivity|].
  simpl. replace (i <? n) with true by (symmetry; apply Z.ltb_lt; lia).
  rewrite (add_in_range i pageSize) by int_range.
  apply IH; try lia.
Qed.

(** X4 (page size).  With [--page-size 0] a run that has records to
    render never returns: the index loop stays at [i = 0] for every
    fuel.  With a negative page size it does not return either before
    [i] has wrapped around, that is within [2^63 / -pageSize]
    iterations. *)
Theorem nonpositive_page_size_never_returns (E : Env) (fuel : nat) (db : Db)
    (ds : list HTTResponse) (pageSize : Z) (inc : bool) :
  SortSliceContract sort_Slice ->
  decodes (db_pairs db) ds ->
  GoInt.len (db_pairs db) <= 2 ^ 62 ->
  db_err db = None ->
  template_Parse = None ->
  kept_of inc ds <> [] ->
  pageSize <= 0 ->
  Z.of_nat fuel * (- pageSize) <= 2 ^ 63 ->
  Run fuel db pageSize inc = None.
Proof.
  intros Hc Hd Hsmall Hview Hparse Hne HP Hfuel.
  destruct (load_kept db ds inc Hd Hsmall) as (lg & Hload & Hq).
  unfold Run. rewrite Hload, Hview. simpl.
  rewrite (sorter_len Hc).
  assert (Hpos : 0 < GoInt.len (kept_of inc ds)).
  { destruct (kept_of inc ds) as [|x l]; [congruence|]. rewrite len_cons.
    pose proof (len_nonneg l). lia. }
  replace (GoInt.len (kept_of inc ds) <=? 0) with false
    by (symmetry; apply Z.leb_gt; exact Hpos).
  rewrite Hparse.
  rewrite index_loop_nonpositive; [reflexivity | | | |]; try lia.
  assert (H63 : 2 ^ 63 = 9223372036854775808) by reflexivity.
  rewrite min_int_value. lia.
Qed.

Lemma nonpositive_page_size_never_returns_witness :
  SortSliceContract (@sort_Slice Concrete.env_mixed) /\
  decodes (E := Concrete.env_mixed) (db_pairs Concrete.db_mixed)
          (map snd Concrete.table_mixed) /\
  GoInt.len (db_pairs Concrete.db_mixed) <= 2 ^ 62 /\
  db_err Concrete.db_mixed = None /\
  @template_Parse Concrete.env_mixed = None /\
  kept_of (E := Concrete.env_mixed) false (map snd Concrete.table_mixed) <> [] /\
  0 <= 0 /\
  Z.of_nat 1000 * (- 0) <= 2 ^ 63 /\
  Run (E := Concrete.env_mixed) 1000 Concrete.db_mixed 0 false = None.
Proof.
  assert (Hc : SortSliceContract (@sort_Slice Concrete.env_mixed))
    by exact insertionSort_contract.
  assert (Hd : decodes (E := Concrete.env_mixed) (db_pairs Concrete.db_mixed)
                       (map snd Concrete.table_mixed))
    by (repeat constructor).
  assert (Hsmall : GoInt.len (db_pairs Concrete.db_mixed) <= 2 ^ 62)
    by (vm_compute; discriminate).
  assert (Hview : db_err Concrete.db_mixed = None) by reflexivity.
  assert (Hparse : @template_Parse Concrete.env_mixed = None) by reflexivity.
  assert (Hne : kept_of (E := Concrete.env_mixed) false
                        (map snd Concrete.table_mixed) <> [])
    by (vm_compute; discriminate).
  assert (HP : 0 <= 0) by lia.
  assert (Hfuel : Z.of_nat 1000 * (- 0) <= 2 ^ 63) by (vm_compute; discriminate).
  split; [exact Hc | split; [exact Hd | split; [exact Hsmall |
    split; [exact Hview | split; [exact Hparse | split; [exact Hne |
    split; [exact HP | split; [exact Hfuel|]]]]]]]].
  exact (nonpositive_page_size_never_returns Concrete.env_mixed 1000
           Concrete.db_mixed _ 0 false Hc Hd Hsmall Hview Hparse Hne HP Hfuel).
Defined.

Lemma renders_85 : renders (E := Concrete.env_85) 100 Concrete.db_85
                           (map snd Concrete.table_85) 40 false.
Proof.
  unfold renders.
  split; [exact insertionSort_contract|].
  split; [apply decodes_85; reflexivity|].
  split; [vm_compute; discriminate|].
  split; [reflexivity|]. split; [reflexivity|].
  split; [rewrite max_int_value; lia|].
  split; [vm_compute; discriminate|].
  apply Nat.ltb_lt. vm_compute. reflexivity.
Qed.

Lemma renders_mixed : renders (E := Concrete.env_mixed) 10 Concrete.db_mixed
                              (map snd Concrete.table_mixed) 40 false.
Proof.
  unfold renders.
  split; [exact insertionSort_contract|].
  split; [repeat constructor|].
  split; [vm_compute; discriminate|].
  split; [reflexivity|]. split; [reflexivity|].
  split; [rewrite max_int_value; lia|].
  split; [vm_compute; discriminate|].
  apply Nat.ltb_lt. vm_compute. reflexivity.
Qed.

(** X5 (page sizes).  In a run that renders, page [p] holds
    [min(pageSize, N - p * pageSize)] records: never none, never more
    than [pageSize], and exactly [pageSize] on every page but the last. *)
Theorem page_sizes (E : Env) (fuel : nat) (db : Db) (ds : list HTTResponse)
    (pageSize : Z) (inc : bool) :
  renders fuel db ds pageSize inc ->
  let n := GoInt.len (kept_of inc ds) in
  let pageCount := ceil_div n pageSize in
  exists o,
    Run fuel db pageSize inc = Some o /\
    forall p, 0 <= p < pageCount ->
      exists r,
        nth_error (out_pages o) (Z.to_nat p) = Some r /\
        GoInt.len (ScreenShots (run_data r)) = Z.min pageSize (n - p * pageSize) /\
        1 <= GoInt.len (ScreenShots (run_data r)) <= pageSize /\
        (p < pageCount - 1 -> GoInt.len (ScreenShots (run_data r)) = pageSize).
Proof.
  intros Hr n pageCount.
  pose proof Hr as (_ & _ & _ & _ & _ & HP & _ & _).
  destruct (renders_outcome E fuel db ds pageSize inc Hr)
    as ((Hcount & Hn & Hlen & _) & lg & _ & Hrun).
  fold n in Hcount, Hn, Hlen, Hrun. fold pageCount in Hcount, Hrun.
  eexists. split; [exact Hrun|]. simpl.
  intros p Hp. eexists. split; [apply nth_error_pages; exact Hp|].
  rewrite render_page_data. simpl.
  assert (Hlow : (pageCount - 1) * pageSize < n)
    by (apply ceil_div_lower; lia).
  assert (Hlt : p * pageSize < n) by nia.
  rewrite spec_slice_len by (rewrite ?Hlen; lia). rewrite Hlen.
  split; [reflexivity|]. split; [lia|].
  intros Hnotlast. assert ((p + 1) * pageSize <= (pageCount - 1) * pageSize) by nia.
  lia.
Qed.

Lemma page_sizes_witness :
  renders (E := Concrete.env_85) 100 Concrete.db_85
          (map snd Concrete.table_85) 40 false /\
  exists o,
    Run (E := Concrete.env_85) 100 Concrete.db_85 40 false = Some o /\
    exists r, nth_error (out_pages o) 2 = Some r /\
              GoInt.len (ScreenShots (run_data r)) = 5.
Proof.
  pose proof renders_85 as Hr.
  destruct (page_sizes Concrete.env_85 100 Concrete.db_85 _ 40 false Hr)
    as (o & Hrun & Hpages).
  split; [exact Hr|]. exists o. split; [exact Hrun|].
  destruct (Hpages 2) as (r & Hnth & Hlen & _).
  - vm_compute. split; [discriminate | reflexivity].
  - exists r. split; [exact Hnth | exact Hlen].
Defined.

(** X6 (navigation round trip).  For a page count between 1 and [2^62]
    and a page [p] below it, both targets are pages of the report, the
    next page of the previous page of [p] is [p], and so is the previous
    page of its next page. *)
Theorem navigation_round_trip (pageCount p : Z) :
  1 <= pageCount <= 2 ^ 62 ->
  0 <= p < pageCount ->
  exists q n,
    prev_target p pageCount = Some q /\ 0 <= q < pageCount /\
    next_target p pageCount = Some n /\ 0 <= n < pageCount /\
    next_target q pageCount = Some p /\
    prev_target n pageCount = Some p.
Proof.
  intros Hc Hp.
  destruct (targets_in_range pageCount p Hc Hp) as [Hprev Hnext].
  set (q := (p + pageCount - 1) mod pageCount) in *.
  set (n := (p + 1) mod pageCount) in *.
  assert (Hq : 0 <= q < pageCount) by (apply Z.mod_pos_bound; lia).
  assert (Hn : 0 <= n < pageCount) by (apply Z.mod_pos_bound; lia).
  destruct (targets_in_range pageCount q Hc Hq) as [_ Hnext_q].
  destruct (targets_in_range pageCount n Hc Hn) as [Hprev_n _].
  exists q, n. repeat split; try assumption; try lia.
  - rewrite Hnext_q. f_equal. unfold q.
    rewrite Z.add_mod_idemp_l by lia.
    replace (p + pageCount - 1 + 1) with (p + 1 * pageCount) by lia.
    rewrite Z.mod_add by lia. apply Z.mod_small. exact Hp.
  - rewrite Hprev_n. f_equal. unfold n.
    replace ((p + 1) mod pageCount + pageCount - 1)
      with ((p + 1) mod pageCount + (pageCount - 1)) by lia.
    rewrite Z.add_mod_idemp_l by lia.
    replace (p + 1 + (pageCount - 1)) with (p + 1 * pageCount) by lia.
    rewrite Z.mod_add by lia. apply Z.mod_small. exact Hp.
Qed.

Lemma navigation_round_trip_witness :
  1 <= 3 <= 2 ^ 62 /\ 0 <= 0 < 3 /\
  exists q n,
    prev_target 0 3 = Some q /\ 0 <= q < 3 /\
    next_target 0 3 = Some n /\ 0 <= n < 3 /\
    next_target q 3 = Some 0 /\
    prev_target n 3 = Some 0.
Proof.
  assert (Hc : 1 <= 3 <= 2 ^ 62) by (split; [lia | vm_compute; discriminate]).
  assert (Hp : 0 <= 0 < 3) by lia.
  split; [exact Hc | split; [exact Hp|]].
  exact (navigation_round_trip 3 0 Hc Hp).
Defined.

(** *** Strings *)

Lemma string_append_nil_r (s : string) : s +s "" = s.
Proof. induction s as [|c s IH]; simpl; [|rewrite IH]; reflexivity. Qed.

Lemma string_append_assoc (s t u : string) : (s +s t) +s u = s +s (t +s u).
Proof. induction s as [|c s IH]; simpl; [|rewrite IH]; reflexivity. Qed.

Lemma string_length_append (s t : string) :
  String.length (s +s t) = (String.length s + String.length t)%nat.
Proof. induction s as [|c s IH]; simpl; [|rewrite IH]; reflexivity. Qed.

Lemma string_append_cancel_r (t : string) :
  forall s1 s2, s1 +s t = s2 +s t -> s1 = s2.
Proof.
  induction s1 as [|c s1 IH]; intros [|d s2] H; simpl in H.
  - reflexivity.
  - apply (f_equal String.length) in H. simpl in H.
    rewrite string_length_append in H. lia.
  - apply (f_equal String.length) in H. simpl in H.
    rewrite string_length_append in H. lia.
  - inversion H; subst. f_equal. apply IH. assumption.
Qed.

(** Decimal printing tells integers apart. *)
Lemma itoa_inj (a b : Z) : GoInt.itoa a = GoInt.itoa b -> a = b.
Proof.
  unfold GoInt.itoa. intros H.
  assert (Hnonnil : forall z, Z.to_int z <> Decimal.Pos Decimal.Nil /\
                              Z.to_int z <> Decimal.Neg Decimal.Nil).
  { intros [|q|q]; simpl; split; try discriminate;
      intros Heq; inversion Heq as [Hq];
      exact (DecimalPos.Unsigned.to_uint_nonnil q Hq). }
  apply DecimalZ.to_int_inj.
  destruct (Hnonnil a) as [Ha1 Ha2]. destruct (Hnonnil b) as [Hb1 Hb2].
  pose proof (NilZero.isi (Z.to_int a) Ha1 Ha2) as Ia.
  pose proof (NilZero.isi (Z.to_int b) Hb1 Hb2) as Ib.
  rewrite H in Ia. rewrite Ia in Ib. inversion Ib. reflexivity.
Qed.

Lemma page_path_inj (a b : Z) :
  "./page-" +s GoInt.itoa a +s ".html" = "./page-" +s GoInt.itoa b +s ".html" ->
  a = b.
Proof.
  intros H. simpl in H. inversion H as [H'].
  apply itoa_inj. eapply string_append_cancel_r. exact H'.
Qed.

(** The index loop appends: its result is the start followed by the
    anchors in list order. *)
Lemma index_string_concat (pages : list Z) :
  forall start,
    index_string start pages =
    start +s String.concat "" (map index_anchor pages).
Proof.
  unfold index_string.
  induction pages as [|p pages IH]; intros start; simpl.
  - rewrite string_append_nil_r. reflexivity.
  - rewrite IH, string_append_assoc. f_equal.
    destruct pages as [|p' pages']; simpl.
    + rewrite string_append_nil_r. reflexivity.
    + reflexivity.
Qed.

Lemma NoDup_map_injective {A B : Type} (f : A -> B) (l : list A) :
  (forall x y, f x = f y -> x = y) -> NoDup l -> NoDup (map f l).
Proof.
  intros Hinj. induction 1 as [|x l Hx _ IH]; simpl; constructor; [|exact IH].
  rewrite in_map_iff. intros (y & Hy & Hin). apply Hinj in Hy. congruence.
Qed.

Lemma NoDup_map_filter {A B : Type} (f : A -> B) (g : A -> bool) (l : list A) :
  NoDup (map f l) -> NoDup (map f (filter g l)).
Proof.
  induction l as [|x l IH]; simpl; intros Hnd; [constructor|].
  inversion Hnd as [|? ? Hx Hl]; subst.
  destruct (g x); simpl; [constructor|]; auto.
  rewrite in_map_iff in *. intros (y & Hy & Hin). apply Hx.
  exists y. split; [exact Hy|]. apply filter_In in Hin. tauto.
Qed.

Lemma NoDup_page_numbers (count : nat) :
  forall from, NoDup (page_numbers from count).
Proof.
  induction count as [|c IH]; intros from; simpl; constructor; [|apply IH].
  rewrite in_page_numbers. lia.
Qed.

(** X7 (template data).  In a run that renders, every page is given the
    number of kept records as [PageCount] (not the number of pages), the
    number of ignored records as [ErrorsIgnored], the two adding up to
    the number of stored records, and the same [PageIndex]: the anchors
    of all pages, one per page, in ascending page order. *)
Theorem page_totals (E : Env) (fuel : nat) (db : Db) (ds : list HTTResponse)
    (pageSize : Z) (inc : bool) :
  renders fuel db ds pageSize inc ->
  let pageCount := ceil_div (GoInt.len (kept_of inc ds)) pageSize in
  exists o,
    Run fuel db pageSize inc = Some o /\
    forall r, In r (out_pages o) ->
      PageCount (run_data r) = GoInt.len (kept_of inc ds) /\
      ErrorsIgnored (run_data r) = ignored_of inc ds /\
      PageCount (run_data r) + ErrorsIgnored (run_data r) =
        GoInt.len (db_pairs db) /\
      PageIndex (run_data r) =
        String.concat "" (map index_anchor (page_numbers 0 (Z.to_nat pageCount))).
Proof.
  intros Hr pageCount.
  pose proof Hr as (_ & Hd & _).
  destruct (renders_outcome E fuel db ds pageSize inc Hr)
    as ((_ & _ & Hlen & _) & lg & _ & Hrun).
  fold pageCount in Hrun.
  eexists. split; [exact Hrun|]. simpl.
  intros r Hin. apply in_map_iff in Hin. destruct Hin as (p & <- & _).
  rewrite render_page_data. simpl. rewrite Hlen.
  split; [reflexivity|]. split; [reflexivity|]. split.
  - unfold ignored_of, kept_of, GoInt.len.
    pose proof (filter_length (fun d => inc || is_success d)
                              (map placeholder_or_keep ds)) as Hsum.
    rewrite length_map in Hsum. apply Forall2_length in Hd. lia.
  - rewrite index_string_concat. reflexivity.
Qed.

Lemma page_totals_witness :
  renders (E := Concrete.env_mixed) 10 Concrete.db_mixed
          (map snd Concrete.table_mixed) 40 false /\
  exists o,
    Run (E := Concrete.env_mixed) 10 Concrete.db_mixed 40 false = Some o /\
    forall r, In r (out_pages o) ->
      PageCount (run_data r) = 2 /\ ErrorsIgnored (run_data r) = 2.
Proof.
  pose proof renders_mixed as Hr.
  destruct (page_totals Concrete.env_mixed 10 Concrete.db_mixed _ 40 false Hr)
    as (o & Hrun & Hall).
  split; [exact Hr|]. exists o. split; [exact Hrun|].
  intros r Hin. destruct (Hall r Hin) as (Hcount & Hign & _).
  split; [exact Hcount | exact Hign].
Defined.

(** X8 (file names).  In a run that renders, the file names of the pages
    are pairwise different, so no page is written over another, and the
    files that exist afterwards have different names. *)
Theorem page_files_distinct (E : Env) (fuel : nat) (db : Db)
    (ds : list HTTResponse) (pageSize : Z) (inc : bool) :
  renders fuel db ds pageSize inc ->
  exists o,
    Run fuel db pageSize inc = Some o /\
    NoDup (map run_file (out_pages o)) /\
    NoDup (map fst (files_written o)).
Proof.
  intros Hr.
  destruct (renders_outcome E fuel db ds pageSize inc Hr)
    as (_ & lg & _ & Hrun).
  eexists. split; [exact Hrun|].
  match goal with
  | |- NoDup (map run_file ?pages) /\ _ =>
      assert (Hnd : NoDup (map run_file pages))
  end.
  { simpl. rewrite map_map.
    apply NoDup_map_injective; [|apply NoDup_page_numbers].
    intros a b Hab. rewrite !render_page_file in Hab. simpl in Hab.
    apply page_path_inj. exact Hab. }
  split; [exact Hnd|].
  unfold files_written. rewrite map_map. simpl.
  apply NoDup_map_filter. exact Hnd.
Qed.

Lemma page_files_distinct_witness :
  renders (E := Concrete.env_85) 100 Concrete.db_85
          (map snd Concrete.table_85) 40 false /\
  exists o,
    Run (E := Concrete.env_85) 100 Concrete.db_85 40 false = Some o /\
    NoDup (map run_file (out_pages o)).
Proof.
  pose proof renders_85 as Hr.
  destruct (page_files_distinct Concrete.env_85 100 Concrete.db_85 _ 40 false Hr)
    as (o & Hrun & Hnd & _).
  split; [exact Hr|]. exists o. split; [exact Hrun | exact Hnd].
Defined.

(* ================================================================= *)
(** ** Further properties of the run: what the report shows *)

(** The records of all pages of a rendering run, in page order, are the
    projection of the sorted kept list. *)
Lemma renders_shown (E : Env) (fuel : nat) (db : Db) (ds : list HTTResponse)
    (pageSize : Z) (inc : bool) :
  renders fuel db ds pageSize inc ->
  exists o,
    Run fuel db pageSize inc = Some o /\
    shown o = map project (sorter (kept_of inc ds)).
Proof.
  intros Hr.
  pose proof Hr as (_ & _ & _ & _ & _ & HP & _ & _).
  destruct (renders_outcome E fuel db ds pageSize inc Hr)
    as ((Hcount & Hn & Hlen & _) & lg & _ & Hrun).
  eexists. split; [exact Hrun|].
  unfold shown, shots_of. simpl. rewrite map_map.
  set (n := GoInt.len (kept_of inc ds)) in *.
  set (pageCount := ceil_div n pageSize) in *.
  assert (Hn0 : 0 <= n <= 2 ^ 62) by lia.
  pose proof (slices_concat n pageSize HP Hn0 _ Hlen
                            (Z.to_nat pageCount) 0 (Z.le_refl 0)) as Hcat.
  simpl in Hcat. etransitivity; [|apply Hcat; unfold pageCount; lia].
  f_equal. apply map_ext. intros p. rewrite render_page_data. reflexivity.
Qed.

Lemma server_fold_projected (E : Env) (hs : list HTTPHeader) :
  forall start,
    fold_left
      (fun server h =>
         if String.eqb (ToLower (Key h)) "server" then ToLower (Value h) else server)
      (filter is_server hs) start =
    fold_left
      (fun server h =>
         if String.eqb (ToLower (Key h)) "server" then ToLower (Value h) else server)
      hs start.
Proof.
  induction hs as [|h hs IH]; intros start; [reflexivity|].
  cbn [filter fold_left].
  destruct (is_server h) eqn:Hk; cbn [fold_left]; [apply IH|].
  unfold is_server in Hk. rewrite Hk. apply IH.
Qed.

Lemma server_of_projected (E : Env) (hs : list HTTPHeader) :
  server_of (filter is_server hs) = server_of hs.
Proof. apply server_fold_projected. Qed.

Lemma project_title (E : Env) (r : HTTResponse) :
  PageTitle (project r) = PageTitle r.
Proof.
  unfold project.
  destruct (negb (String.eqb (ScreenshotFile r) PlaceHolderImage)); reflexivity.
Qed.

Lemma project_headers (E : Env) (r : HTTResponse) :
  Headers (project r) = filter is_server (Headers r).
Proof.
  unfold project.
  destruct (negb (String.eqb (ScreenshotFile r) PlaceHolderImage)); reflexivity.
Qed.

(** X9 (projection and order).  The display projection changes neither
    comparison of the sorter: two projected records compare by title and
    by server key as the records they come from, so the order shown is
    the order of the values shown; and every header left on a projected
    record is a "server" header. *)
Theorem projection_keeps_order (E : Env) (a b : HTTResponse) :
  title_less (project a) (project b) = title_less a b /\
  server_less (project a) (project b) = server_less a b /\
  server_key (project a) = server_key a /\
  Forall (fun h => String.eqb (ToLower (Key h)) "server" = true)
         (Headers (project a)).
Proof.
  unfold title_less, server_less, server_key.
  rewrite !project_title, !project_headers, !server_of_projected.
  repeat split.
  apply Forall_forall. intros h Hin. apply filter_In in Hin. exact (proj2 Hin).
Qed.

(** X12 (nothing lost, nothing added).  In a run that renders, the
    records on the pages are the projections of the kept records, each
    exactly once: as many as were kept, with the same URLs. *)
Theorem report_shows_each_kept_once (E : Env) (fuel : nat) (db : Db)
    (ds : list HTTResponse) (pageSize : Z) (inc : bool) :
  renders fuel db ds pageSize inc ->
  exists o,
    Run fuel db pageSize inc = Some o /\
    Permutation (map project (kept_of inc ds)) (shown o) /\
    GoInt.len (shown o) = GoInt.len (kept_of inc ds) /\
    Permutation (map URL (kept_of inc ds)) (map URL (shown o)).
Proof.
  intros Hr. pose proof Hr as (Hc & _).
  destruct (renders_shown E fuel db ds pageSize inc Hr) as (o & Hrun & Hshown).
  exists o. split; [exact Hrun|]. rewrite Hshown.
  pose proof (sorter_perm Hc (kept_of inc ds)) as Hperm.
  split; [apply Permutation_map; exact Hperm|]. split.
  - unfold GoInt.len. rewrite length_map.
    rewrite <- (Permutation_length Hperm). reflexivity.
  - rewrite map_map.
    rewrite (map_ext (fun r => URL (project r)) URL).
    + apply Permutation_map. exact Hperm.
    + intros r. unfold project.
      destruct (negb (String.eqb (ScreenshotFile r) PlaceHolderImage));
        reflexivity.
Qed.

Lemma report_shows_each_kept_once_witness :
  renders (E := Concrete.env_mixed) 10 Concrete.db_mixed
          (map snd Concrete.table_mixed) 40 false /\
  exists o,
    Run (E := Concrete.env_mixed) 10 Concrete.db_mixed 40 false = Some o /\
    GoInt.len (shown o) = 2 /\
    Permutation ["http://shots/a.png"; "http://shots/c.png"] (map URL (shown o)).
Proof.
  pose proof renders_mixed as Hr.
  destruct (report_shows_each_kept_once Concrete.env_mixed 10 Concrete.db_mixed
              _ 40 false Hr) as (o & Hrun & _ & Hlen & Hurls).
  split; [exact Hr|]. exists o.
  split; [exact Hrun | split; [exact Hlen | exact Hurls]].
Defined.

Lemma sorted_map {A B : Type} (R : B -> B -> Prop) (f : A -> B) (l : list A) :
  StronglySorted (fun a b => R (f a) (f b)) l -> StronglySorted R (map f l).
Proof.
  induction 1 as [|x l _ IH Hx]; simpl; constructor; [exact IH|].
  apply Forall_map. exact Hx.
Qed.

(** X13 (titles across pages).  In a run that renders, reading the pages
    in order gives the records in ascending order of their lower-cased
    titles: the order of the sorter carries over the page boundaries and
    through the projection. *)
Theorem report_titles_ascending (E : Env) (fuel : nat) (db : Db)
    (ds : list HTTResponse) (pageSize : Z) (inc : bool) :
  renders fuel db ds pageSize inc ->
  ToLowerLaws ToLower ->
  exists o,
    Run fuel db pageSize inc = Some o /\
    StronglySorted
      (fun a b => String.ltb (ToLower (PageTitle b)) (ToLower (PageTitle a)) = false)
      (shown o).
Proof.
  intros Hr Hl. pose proof Hr as (Hc & Hd & Hsmall & _).
  destruct (renders_shown E fuel db ds pageSize inc Hr) as (o & Hrun & Hshown).
  exists o. split; [exact Hrun|]. rewrite Hshown.
  apply sorted_map.
  assert (Hmax : GoInt.len (kept_of inc ds) <= GoInt.max_int).
  { pose proof (kept_len_le db ds inc Hd).
    assert (H62 : 2 ^ 62 = 4611686018427387904) by reflexivity. int_range. }
  pose proof (sorter_title_sorted Hc Hl (kept_of inc ds) Hmax) as Hsorted.
  eapply StronglySorted_ind with (l := sorter (kept_of inc ds));
    [constructor | | exact Hsorted].
  intros a l _ IH Ha. constructor; [exact IH|].
  eapply Forall_impl; [|exact Ha]. intros b Hb.
  rewrite !project_title. exact Hb.
Qed.

Lemma report_titles_ascending_witness :
  renders (E := Concrete.env_85) 100 Concrete.db_85
          (map snd Concrete.table_85) 40 false /\
  ToLowerLaws (@ToLower Concrete.env_85) /\
  exists o,
    Run (E := Concrete.env_85) 100 Concrete.db_85 40 false = Some o /\
    StronglySorted
      (fun a b => String.ltb (Concrete.ascii_ToLower (PageTitle b))
                             (Concrete.ascii_ToLower (PageTitle a)) = false)
      (shown o).
Proof.
  pose proof renders_85 as Hr.
  assert (Hl : ToLowerLaws (@ToLower Concrete.env_85)) by exact ascii_ToLower_laws.
  split; [exact Hr | split; [exact Hl|]].
  exact (report_titles_ascending Concrete.env_85 100 Concrete.db_85 _ 40 false
           Hr Hl).
Defined.

(** X10 (screenshots shown).  In a run that renders, the screenshot of
    every record on a page is the placeholder, or the base name of the
    path of a stored record whose probe did not answer "does not exist":
    a file found missing at load time is never referenced, and the
    placeholder is never cut down to a base name. *)
Theorem shown_screenshots (E : Env) (fuel : nat) (db : Db)
    (ds : list HTTResponse) (pageSize : Z) (inc : bool) :
  renders fuel db ds pageSize inc ->
  exists o,
    Run fuel db pageSize inc = Some o /\
    forall s, In s (shown o) ->
      ScreenshotFile s = PlaceHolderImage \/
      exists d, In d ds /\
                os_Stat (ScreenshotFile d) <> StatNotExist /\
                ScreenshotFile s = Base (ScreenshotFile d).
Proof.
  intros Hr. pose proof Hr as (Hc & _).
  destruct (renders_shown E fuel db ds pageSize inc Hr) as (o & Hrun & Hshown).
  exists o. split; [exact Hrun|]. rewrite Hshown.
  intros s Hin. apply in_map_iff in Hin. destruct Hin as (r & <- & Hr_in).
  apply (Permutation_in _ (Permutation_sym (sorter_perm Hc _))) in Hr_in.
  unfold kept_of in Hr_in. apply filter_In in Hr_in. destruct Hr_in as [Hr_in _].
  apply in_map_iff in Hr_in. destruct Hr_in as (d & <- & Hd_in).
  unfold placeholder_or_keep, check_screenshot, project.
  destruct (os_Stat (ScreenshotFile d)) eqn:Hstat; simpl.
  - destruct (String.eqb_spec (ScreenshotFile d) PlaceHolderImage) as [Heq|Hne];
      simpl; [left; exact Heq | right].
    exists d. rewrite Hstat. repeat split; [exact Hd_in | discriminate].
  - rewrite String.eqb_refl. simpl. left. reflexivity.
  - destruct (String.eqb_spec (ScreenshotFile d) PlaceHolderImage) as [Heq|Hne];
      simpl; [left; exact Heq | right].
    exists d. rewrite Hstat. repeat split; [exact Hd_in | discriminate].
Qed.

Lemma shown_screenshots_witness :
  renders (E := Concrete.env_mixed) 10 Concrete.db_mixed
          (map snd Concrete.table_mixed) 40 false /\
  exists o,
    Run (E := Concrete.env_mixed) 10 Concrete.db_mixed 40 false = Some o /\
    forall s, In s (shown o) ->
      ScreenshotFile s = Concrete.placeholder \/
      exists d, In d (map snd Concrete.table_mixed) /\
                ScreenshotFile s = Concrete.unix_Base (ScreenshotFile d).
Proof.
  pose proof renders_mixed as Hr.
  destruct (shown_screenshots Concrete.env_mixed 10 Concrete.db_mixed _ 40 false Hr)
    as (o & Hrun & Hall).
  split; [exact Hr|]. exists o. split; [exact Hrun|].
  intros s Hin. destruct (Hall s Hin) as [Hp | (d & Hd & _ & Hbase)].
  - left. exact Hp.
  - right. exists d. split; [exact Hd | exact Hbase].
Defined.

(** X14 (single page).  When the page size is at least the number of
    kept records, a run that renders writes the single file
    [./page-0.html]; it holds every kept record, and both its links lead
    back to itself. *)
Theorem single_page_links_itself (E : Env) (fuel : nat) (db : Db)
    (ds : list HTTResponse) (pageSize : Z) (inc : bool) :
  renders fuel db ds pageSize inc ->
  GoInt.len (kept_of inc ds) <= pageSize ->
  exists o r,
    Run fuel db pageSize inc = Some o /\
    out_pages o = [r] /\
    ScreenShots (run_data r) = map project (sorter (kept_of inc ds)) /\
    PagePrev (run_data r) = prev_link 0 /\
    PageNext (run_data r) = next_link 0 /\
    run_file r = "./page-0.html".
Proof.
  intros Hr Hfit.
  pose proof Hr as (_ & _ & _ & _ & _ & HP & _ & _).
  destruct (renders_outcome E fuel db ds pageSize inc Hr)
    as ((Hcount & Hn & Hlen & _) & lg & _ & Hrun).
  assert (Hone : ceil_div (GoInt.len (kept_of inc ds)) pageSize = 1).
  { assert (ceil_div (GoInt.len (kept_of inc ds)) pageSize <= 1)
      by (apply ceil_div_le; lia).
    lia. }
  rewrite Hone in Hrun. simpl in Hrun.
  eexists. eexists. split; [exact Hrun|]. split; [reflexivity|].
  rewrite render_page_file, render_page_data.
  unfold spec_page. cbn [ScreenShots PagePrev PageNext PageNumber].
  rewrite !Z.mod_1_r. repeat split.
  unfold spec_slice. rewrite Hlen.
  replace (Z.to_nat (0 * pageSize)) with O by lia. cbn [skipn].
  apply firstn_all2. unfold GoInt.len in *. lia.
Qed.

Lemma single_page_links_itself_witness :
  renders (E := Concrete.env_mixed) 10 Concrete.db_mixed
          (map snd Concrete.table_mixed) 40 false /\
  GoInt.len (kept_of (E := Concrete.env_mixed) false (map snd Concrete.table_mixed))
    <= 40 /\
  exists o r,
    Run (E := Concrete.env_mixed) 10 Concrete.db_mixed 40 false = Some o /\
    out_pages o = [r] /\
    PagePrev (run_data r) = prev_link 0 /\
    PageNext (run_data r) = next_link 0 /\
    run_file r = "./page-0.html".
Proof.
  pose proof renders_mixed as Hr.
  assert (Hfit : GoInt.len (kept_of (E := Concrete.env_mixed) false
                              (map snd Concrete.table_mixed)) <= 40)
    by (vm_compute; discriminate).
  destruct (single_page_links_itself Concrete.env_mixed 10 Concrete.db_mixed _ 40
              false Hr Hfit) as (o & r & Hrun & Hpages & _ & Hprev & Hnext & Hfile).
  split; [exact Hr | split; [exact Hfit|]].
  exists o, r.
  split; [exact Hrun | split; [exact Hpages | split; [exact Hprev |
    split; [exact Hnext | exact Hfile]]]].
Defined.

(* ================================================================= *)
(** ** Further properties of the run: no panic *)

Lemma ascend_fn_entries_len (E : Env) (inc : bool) (st st' : LoadState)
    (kv : string * string) :
  ascend_fn inc st kv = inr st' ->
  GoInt.len (screenshotEntries st') <= GoInt.len (screenshotEntries st) + 1.
Proof.
  unfold ascend_fn. destruct (json_Unmarshal (snd kv)); [discriminate|].
  destruct (check_screenshot h) as [data plog].
  destruct inc; [|destruct (is_success data)]; intros H; inversion H; subst;
    simpl; rewrite ?len_app; unfold GoInt.len; rewrite ?length_app; simpl; lia.
Qed.

Lemma Ascend_entries_len (E : Env) (inc : bool) (pairs : list (string * string)) :
  forall st st',
    Ascend inc pairs st = inr st' ->
    GoInt.len (screenshotEntries st') <=
    GoInt.len (screenshotEntries st) + GoInt.len pairs.
Proof.
  induction pairs as [|kv pairs IH]; intros st st' H; simpl in H.
  - inversion H; subst. unfold GoInt.len. simpl. lia.
  - destruct (ascend_fn inc st kv) as [|st1] eqn:Hstep; [discriminate|].
    apply ascend_fn_entries_len in Hstep. apply IH in H.
    rewrite len_cons. lia.
Qed.

Section NoPanicFacts.

Context {E : Env}.

Variables (n pageSize : Z).
Hypothesis pageSize_pos : 0 < pageSize <= GoInt.max_int.
Hypothesis n_small : 0 <= n <= 2 ^ 62.

(** Whatever the fuel, the index loop can only end at the page count. *)
Lemma index_loop_result (fuel : nat) :
  forall i pageno s pageCount pageIndex,
    0 <= pageno -> i = pageno * pageSize ->
    (pageno = 0 \/ (pageno - 1) * pageSize < n) ->
    index_loop fuel n pageSize i pageno s = Some (pageCount, pageIndex) ->
    pageCount = ceil_div n pageSize.
Proof.
  induction fuel as [|fuel IH]; intros i pageno s pageCount pageIndex Hk Hi Hprev H;
    [discriminate|].
  simpl in H. destruct (i <? n) eqn:Hlt.
  - apply Z.ltb_lt in Hlt.
    destruct (page_step_in_range n pageSize i pageno) as [Hi' Hk'];
      try assumption; try lia.
    rewrite Hi', Hk' in H.
    eapply IH; [| |right|exact H]; lia.
  - apply Z.ltb_ge in Hlt. inversion H; subst.
    assert (ceil_div n pageSize <= pageCount) by (apply ceil_div_le; lia).
    destruct Hprev as [-> | Hprev].
    + pose proof (ceil_div_nonneg n pageSize ltac:(lia) ltac:(lia)). lia.
    + pose proof (ceil_div_gt n pageSize (pageCount - 1) ltac:(lia) Hprev). lia.
Qed.

Variable entries : list HTTResponse.
Hypothesis entries_len : GoInt.len entries = n.

(** Whatever the fuel, the render loop does not end in a panic. *)
Lemma render_loop_no_panic (fuel : nat) :
  forall pageIndex ignored i pageno runs panicked,
    0 <= pageno -> i = pageno * pageSize ->
    render_loop fuel entries pageSize (ceil_div n pageSize) pageIndex ignored
                i pageno = Some (runs, panicked) ->
    panicked = false.
Proof.
  induction fuel as [|fuel IH];
    intros pageIndex ignored i pageno runs panicked Hk Hi H; [discriminate|].
  simpl in H. rewrite entries_len in H. destruct (i <? n) eqn:Hlt.
  - apply Z.ltb_lt in Hlt.
    rewrite (page_data_spec n pageSize pageSize_pos n_small entries entries_len)
      in H by lia.
    destruct (page_step_in_range n pageSize i pageno) as [Hi' Hk'];
      try assumption; try lia.
    rewrite Hi', Hk' in H.
    destruct (render_loop fuel entries pageSize (ceil_div n pageSize) pageIndex
                          ignored ((pageno + 1) * pageSize) (pageno + 1))
      as [[runs' panicked']|] eqn:Hrest; [|discriminate].
    inversion H; subst.
    eapply IH; [| |exact Hrest]; lia.
  - inversion H. reflexivity.
Qed.

End NoPanicFacts.

(** X11 (no panic).  With a positive page size and a sort that meets
    its contract, a run that ends does not end in a run-time panic: no
    slice bound is out of range and no remainder is taken by zero,
    whatever the store holds, whether or not its values decode, and
    whatever the file system and the template answer. *)
Theorem never_panics (E : Env) (fuel : nat) (db : Db) (pageSize : Z)
    (inc : bool) (o : Outcome) :
  SortSliceContract sort_Slice ->
  GoInt.len (db_pairs db) <= 2 ^ 62 ->
  0 < pageSize <= GoInt.max_int ->
  Run fuel db pageSize inc = Some o ->
  out_exit o <> ExitPanic.
Proof.
  intros Hc Hsmall HP Hrun. unfold Run in Hrun.
  destruct (load inc (db_pairs db)) as [fatal | st] eqn:Hload.
  { inversion Hrun; subst. discriminate. }
  destruct (db_err db); [inversion Hrun; subst; discriminate|].
  set (entries := sorter (screenshotEntries st)) in *.
  destruct (GoInt.len entries <=? 0); [inversion Hrun; subst; discriminate|].
  destruct template_Parse; [inversion Hrun; subst; discriminate|].
  assert (Hn : 0 <= GoInt.len entries <= 2 ^ 62).
  { split; [apply len_nonneg|]. unfold entries. rewrite (sorter_len Hc).
    apply Ascend_entries_len in Hload. simpl in Hload.
    unfold GoInt.len in *. simpl in Hload. lia. }
  destruct (index_loop fuel (GoInt.len entries) pageSize 0 0 "")
    as [[pageCount pageIndex]|] eqn:Hindex; [|discriminate].
  apply (index_loop_result _ pageSize HP Hn) in Hindex; try lia.
  subst pageCount.
  destruct (render_loop fuel (map project entries) pageSize
                        (ceil_div (GoInt.len entries) pageSize) pageIndex
                        (errorsIgnored st) 0 0)
    as [[runs panicked]|] eqn:Hrender; [|discriminate].
  apply (render_loop_no_panic _ pageSize HP Hn (map project entries)) in Hrender;
    try lia; [|unfold GoInt.len; rewrite length_map; reflexivity].
  subst panicked. inversion Hrun; subst. discriminate.
Qed.

Lemma never_panics_witness :
  SortSliceContract (@sort_Slice Concrete.env_failing) /\
  GoInt.len (db_pairs Concrete.db_85) <= 2 ^ 62 /\
  0 < 40 <= GoInt.max_int /\
  exists o,
    Run (E := Concrete.env_failing) 100 Concrete.db_85 40 false = Some o /\
    out_exit o <> ExitPanic.
Proof.
  assert (Hc : SortSliceContract (@sort_Slice Concrete.env_failing))
    by exact insertionSort_contract.
  assert (Hsmall : GoInt.len (db_pairs Concrete.db_85) <= 2 ^ 62)
    by (vm_compute; discriminate).
  assert (HP : 0 < 40 <= GoInt.max_int) by (rewrite max_int_value; lia).
  assert (Hr : renders (E := Concrete.env_failing) 100 Concrete.db_85
                       (map snd Concrete.table_85) 40 false).
  { unfold renders. split; [exact Hc|].
    split; [apply decodes_85; reflexivity|].
    split; [exact Hsmall|]. split; [reflexivity|]. split; [reflexivity|].
    split; [exact HP|]. split; [vm_compute; discriminate|].
    apply Nat.ltb_lt. vm_compute. reflexivity. }
  destruct (renders_outcome Concrete.env_failing 100 Concrete.db_85 _ 40 false Hr)
    as (_ & lg & _ & Hrun).
  split; [exact Hc | split; [exact Hsmall | split; [exact HP|]]].
  eexists. split; [exact Hrun|].
  exact (never_panics Concrete.env_failing 100 Concrete.db_85 40 false _
           Hc Hsmall HP Hrun).
Defined.

(* ================================================================= *)
(** ** Further properties of the sorter *)

Lemma filter_nothing {A : Type} (f : A -> bool) (l : list A) :
  Forall (fun x => f x = false) l -> filter f l = [].
Proof.
  induction 1 as [|x l Hx _ IH]; simpl; [reflexivity|].
  rewrite Hx. exact IH.
Qed.

(** X15 (titled records).  The second sort never moves a record that
    has a title: the titled records leave the sorter in the order the
    title sort gave them, also when their titles agree and their server
    headers differ. *)
Theorem titled_records_keep_title_order (E : Env) (kept : list HTTResponse) :
  SortSliceContract sort_Slice ->
  ToLowerLaws ToLower ->
  GoInt.len kept <= GoInt.max_int ->
  filter (fun r => negb (untitled r)) (sorter kept) =
  filter (fun r => negb (untitled r)) (sort_Slice title_less kept).
Proof.
  intros Hc Hl Hmax.
  pose proof (title_sorted_split Hc Hl kept Hmax) as Hsplit. cbv zeta in Hsplit.
  unfold sorter.
  set (l1 := sort_Slice title_less kept) in *.
  set (n := Z.to_nat (lastSortIndex l1)) in *.
  rewrite <- (firstn_skipn n l1) at 3. rewrite !filter_app. f_equal.
  assert (Hpre : Forall (fun r => untitled r = true) (firstn n l1)).
  { destruct Hsplit as [[_ Hn] | [Hpre _]]; [|exact Hpre].
    rewrite Hn. constructor. }
  destruct (Hc server_less (firstn n l1) server_less_sw) as [Hperm _].
  rewrite !filter_nothing; [reflexivity | |].
  - eapply Forall_impl; [|exact Hpre]. intros r Hr. rewrite Hr. reflexivity.
  - eapply Forall_impl; [|eapply Permutation_Forall; [exact Hperm | exact Hpre]].
    intros r Hr. simpl in Hr. rewrite Hr. reflexivity.
Qed.

Lemma titled_records_keep_title_order_witness :
  SortSliceContract (@sort_Slice Concrete.env_shell) /\
  ToLowerLaws (@ToLower Concrete.env_shell) /\
  GoInt.len [Concrete.rec_nginx; Concrete.rec_titled; Concrete.rec_apache;
             Concrete.rec_b1]
    <= GoInt.max_int /\
  filter (fun r => negb (untitled r))
         (sorter (E := Concrete.env_shell)
            [Concrete.rec_nginx; Concrete.rec_titled; Concrete.rec_apache;
             Concrete.rec_b1]) =
  [Concrete.rec_b1; Concrete.rec_titled].
Proof.
  assert (Hc : SortSliceContract (@sort_Slice Concrete.env_shell))
    by exact shell_insertion_sort_contract.
  assert (Hl : ToLowerLaws (@ToLower Concrete.env_shell))
    by exact ascii_ToLower_laws.
  assert (Hmax : GoInt.len [Concrete.rec_nginx; Concrete.rec_titled;
                            Concrete.rec_apache; Concrete.rec_b1]
                 <= GoInt.max_int)
    by (vm_compute; discriminate).
  split; [exact Hc | split; [exact Hl | split; [exact Hmax|]]].
  rewrite (titled_records_keep_title_order Concrete.env_shell _ Hc Hl Hmax).
  reflexivity.
Defined.
